(** * Faraday server: query helpers and the role-weight migration

    A shallow embedding of [faraday/server/utils/database.py] and of the
    Alembic revision [384784872dc1_add_weight_column_in_role.py], together
    with the properties their documentation states about them.

    Python values are modelled as follows.
    - [str] is [string]; [+] on strings is [String.app]; [str.lower] is
      needed only to recognise the ASCII words [true], [false], [0] and [1],
      and no non-ASCII character lower-cases to one of their letters, so the
      ASCII lowering [lower] decides the same comparisons.
    - [None] in a position that also holds a value is [option].
    - A [dict] whose iteration order shapes the result (the
      [field_to_col_map] argument) is an association list in insertion
      order; a [dict] that is only looked up is a [gmap].
    - [raise] is the [Raise] constructor of [result].
    - A SQLAlchemy query is generative: [filter], [order_by], [limit] and
      [offset] return a new query; [query] records what was asked of it.
      [filter] and [order_by] are refused, with [InvalidRequestError], on a
      query that already has a [LIMIT] or an [OFFSET]. *)

From Stdlib Require Import ZArith Ascii String List.
From stdpp Require Import base option list strings gmap fin_maps.

Local Open Scope string_scope.
Local Open Scope Z_scope.

(** ** Python primitives *)

Module Py.

Inductive exn : Type :=
| ValueError
| RuntimeError
| KeyError
| AttributeError
| AssertionError
| IntegrityError
| ProgrammingError
| InvalidRequestError
| TypeError.

Inductive result (A : Type) : Type :=
| Ok (a : A)
| Raise (e : exn).

Arguments Ok {A} a.
Arguments Raise {A} e.

(** Exceptions propagate: [x ← r; k x] runs [k] only when [r] returned. *)
#[export] Instance result_ret : MRet result := fun A a => Ok a.
#[export] Instance result_bind : MBind result := fun A B k r =>
  match r with
  | Ok a => k a
  | Raise e => Raise e
  end.

(** [c.lower()] on one ASCII character. *)
Definition lower_ascii (c : ascii) : ascii :=
  let n := nat_of_ascii c in
  if (Nat.leb 65 n && Nat.leb n 90)%bool then ascii_of_nat (n + 32) else c.

(** [s.lower()] *)
Fixpoint lower (s : string) : string :=
  match s with
  | EmptyString => EmptyString
  | String c rest => String (lower_ascii c) (lower rest)
  end.

(** [x in xs] for a list of strings. *)
Definition str_in (x : string) (xs : list string) : bool :=
  bool_decide (x ∈ xs).

(** Truthiness of an optional string: [None] and [''] are falsy. *)
Definition str_truthy (s : option string) : bool :=
  match s with
  | Some (String _ _) => true
  | _ => false
  end.

(** Truthiness of an optional list: [None] and [[]] are falsy. *)
Definition list_truthy {A : Type} (l : option (list A)) : bool :=
  match l with
  | Some (_ :: _) => true
  | _ => false
  end.

(** The elements of a list that is known not to be [None]. *)
Definition items {A : Type} (l : option (list A)) : list A :=
  match l with
  | Some xs => xs
  | None => []
  end.

(** An insertion-ordered [dict] with string keys. *)
Definition odict (V : Type) : Type := list (string * V).

(** [d.get(k)] *)
Fixpoint odict_get {V : Type} (d : odict V) (k : string) : option V :=
  match d with
  | [] => None
  | (k', v) :: rest => if String.eqb k' k then Some v else odict_get rest k
  end.

(** [k in d] *)
Definition odict_mem {V : Type} (d : odict V) (k : string) : bool :=
  match odict_get d k with
  | Some _ => true
  | None => false
  end.

(** [iter(d)]: the keys in insertion order. *)
Definition odict_keys {V : Type} (d : odict V) : list string := map fst d.

(** [s.endswith(suffix)] *)
Definition endswith (s suffix : string) : bool :=
  String.prefix (String.rev suffix) (String.rev s).

(** [s.lstrip(chars)]: drop leading characters that occur in [chars]. *)
Fixpoint lstrip (chars : list ascii) (s : string) : string :=
  match s with
  | EmptyString => EmptyString
  | String c rest =>
      if bool_decide (c ∈ chars) then lstrip chars rest else s
  end.

(** [s.strip(chars)]: drop leading and trailing characters in [chars]. *)
Definition strip (s chars : string) : string :=
  let cs := list_ascii_of_string chars in
  String.rev (lstrip cs (String.rev (lstrip cs s))).

(** Scalar values held by attributes and table cells, and model objects
    referred to from a data dictionary (known by their [id]). *)
Inductive value : Type :=
| VNone
| VBool (b : bool)
| VInt (n : Z)
| VStr (s : string)
| VObj (id : option Z).

#[export] Instance value_eq_dec : EqDecision value.
Proof. solve_decision. Defined.

(** Truthiness, as [if v:] tests it. *)
Definition truthy (v : value) : bool :=
  match v with
  | VNone => false
  | VBool b => b
  | VInt n => negb (n =? 0)
  | VStr s => negb (String.eqb s EmptyString)
  | VObj _ => true
  end.

End Py.

Import Py.

(** ** faraday/server/utils/database.py: query construction *)

Module Database.

(** The column types the module distinguishes: [Boolean] and all others. *)
Inductive col_type : Type :=
| Boolean
| OtherType (type_name : string).

Record column : Type := mk_column {
  col_name : string;
  col_ty : col_type;
}.

(** An entry of a [field_to_col_map] value: a label (a Python [str]) or a
    column object. *)
Inductive mapped : Type :=
| Label (label : string)
| Column (c : column).

(** [isinstance(column.type, Boolean)] *)
Definition is_boolean (c : column) : bool :=
  match col_ty c with
  | Boolean => true
  | OtherType _ => false
  end.

(** SQL expressions the module builds. [Is c (Some b)] is [c IS b] and
    [Is c None] is [c IS NULL]. *)
Inductive clause : Type :=
| Like (c : column) (pattern : string)
| OpEq (c : column) (v : string)
| Is (c : column) (v : option bool)
| And (l r : clause)
| Or (l r : clause).

Inductive order_term : Type :=
| Asc (m : mapped)
| Desc (m : mapped)
| Plain (m : mapped).

Record query : Type := mk_query {
  q_filter : list clause;
  q_order_by : list order_term;
  q_limit : option Z;
  q_offset : option Z;
}.

(** The query already has [LIMIT] or [OFFSET] applied. *)
Definition has_limit_offset (q : query) : bool :=
  match q_limit q, q_offset q with
  | None, None => false
  | _, _ => true
  end.

(** [query.filter(c)]: refused once [LIMIT] or [OFFSET] is applied. *)
Definition filter (q : query) (c : clause) : result query :=
  if has_limit_offset q then Raise InvalidRequestError
  else Ok (mk_query (q_filter q ++ [c]) (q_order_by q) (q_limit q) (q_offset q)).

(** [query.order_by] with the columns [cols]: refused once [LIMIT] or [OFFSET] is applied. *)
Definition order_by (q : query) (cols : list order_term) : result query :=
  if has_limit_offset q then Raise InvalidRequestError
  else Ok (mk_query (q_filter q) (q_order_by q ++ cols) (q_limit q) (q_offset q)).

Definition limit (q : query) (n : Z) : query :=
  mk_query (q_filter q) (q_order_by q) (Some n) (q_offset q).

Definition offset (q : query) (n : Z) : query :=
  mk_query (q_filter q) (q_order_by q) (q_limit q) (Some n).

Module ORDER_DIRECTIONS.
Definition ASCENDING : string := "asc".
Definition DESCENDING : string := "desc".
End ORDER_DIRECTIONS.

Definition paginate (q : query) (page page_size : Z) : result query :=
  if negb ((page >=? 0) && (page_size >=? 0))
  then Raise ValueError
  else Ok (offset (limit q page_size) (page * page_size)).

Definition sort_results (q : query) (field_to_col_map : odict (list mapped))
    (order_field order_dir : string) (default : option order_term)
    : result query :=
  let order_cols := odict_get field_to_col_map order_field in
  let order_cols : option (list order_term) :=
    if list_truthy order_cols
       && str_in order_dir
            [ORDER_DIRECTIONS.ASCENDING; ORDER_DIRECTIONS.DESCENDING]
    then
      let dir_func :=
        if String.eqb order_dir ORDER_DIRECTIONS.ASCENDING
        then Asc else Desc in
      Some (map dir_func (items order_cols))
    else
      match default with
      | Some d => Some [d]
      | None => None
      end in
  if list_truthy order_cols then order_by q (items order_cols) else Ok q.

Definition concat_search_terms (sql_filter_left sql_filter_right : option clause)
    (operator : string) : option clause :=
  match sql_filter_left, sql_filter_right with
  | None, None => None
  | None, Some r => Some r
  | Some l, None => Some l
  | Some l, Some r =>
      if String.eqb operator "and" then Some (And l r)
      else if String.eqb operator "or" then Some (Or l r)
      else None
  end.

Definition concat_and_search_term (left right : option clause) : option clause :=
  concat_search_terms left right "and".

Definition concat_or_search_term (left right : option clause) : option clause :=
  concat_search_terms left right "or".

Definition prepare_boolean_filter (c : column) (search_term : string)
    : option clause :=
  if str_in search_term ["true"; "1"] then Some (Is c (Some true))
  else if str_in search_term ["false"; "0"]
       then Some (Or (Is c (Some false)) (Is c None))
       else None.

(** Lines 85-106: the body of the loop over the columns of [attribute],
    as a step on [search_term_sql_filter]. [value] is
    [field_filter.get(attribute)], read only on the direct-filter paths. *)
Definition column_step (attribute : string) (is_direct_filter_search : bool)
    (value : string) (strict_filter : list string) (like_str : string)
    (search_term_sql_filter : option clause) (col : mapped) : option clause :=
  match col with
  | Label _ => search_term_sql_filter
  | Column c =>
      if is_direct_filter_search && is_boolean c then
        let field_search_term := lower value in
        match prepare_boolean_filter c field_search_term with
        | None => search_term_sql_filter
        | Some search_term =>
            concat_or_search_term search_term_sql_filter (Some search_term)
        end
      else
        let search_term :=
          if is_direct_filter_search && str_in attribute strict_filter
          then OpEq c value
          else Like c like_str in
        concat_or_search_term search_term_sql_filter (Some search_term)
  end.

(** Lines 79-106: [search_term_sql_filter] after the loop over the columns
    of [attribute]. *)
Definition attribute_filter (field_to_col_map : odict (list mapped))
    (attribute : string) (is_direct_filter_search : bool) (value : string)
    (strict_filter : list string) (like_str : string) : option clause :=
  fold_left
    (column_step attribute is_direct_filter_search value strict_filter like_str)
    (items (odict_get field_to_col_map attribute)) None.

(** Lines 67-112: one iteration of the loop over the attributes, as a step
    on [(fts_sql_filter, dfs_sql_filter)]. *)
Definition attribute_step (field_to_col_map : odict (list mapped))
    (free_text_search : option string) (field_filter : gmap string string)
    (strict_filter : list string)
    (filters : option clause * option clause) (attribute : string)
    : option clause * option clause :=
  let '(fts_sql_filter, dfs_sql_filter) := filters in
  let is_direct_filter_search := bool_decide (is_Some (field_filter !! attribute)) in
  let is_free_text_search :=
    negb is_direct_filter_search && str_truthy free_text_search in
  let value := default EmptyString (field_filter !! attribute) in
  let like_str :=
    if is_direct_filter_search then Some ("%" ++ value ++ "%")
    else if is_free_text_search
         then Some ("%" ++ default EmptyString free_text_search ++ "%")
         else None in
  match like_str with
  | None => filters
  | Some like_str =>
      let search_term_sql_filter :=
        attribute_filter field_to_col_map attribute is_direct_filter_search
          value strict_filter like_str in
      if is_direct_filter_search then
        (fts_sql_filter,
         concat_and_search_term dfs_sql_filter search_term_sql_filter)
      else if is_free_text_search then
        (concat_or_search_term fts_sql_filter search_term_sql_filter,
         dfs_sql_filter)
      else filters
  end.

(** Lines 62-112: [(fts_sql_filter, dfs_sql_filter)] after the loop. *)
Definition search_filters (field_to_col_map : odict (list mapped))
    (free_text_search : option string) (field_filter : gmap string string)
    (strict_filter : list string) : option clause * option clause :=
  fold_left
    (attribute_step field_to_col_map free_text_search field_filter strict_filter)
    (odict_keys field_to_col_map) (None, None).

Definition apply_search_filter (q : query)
    (field_to_col_map : odict (list mapped))
    (free_text_search : option string) (field_filter : gmap string string)
    (strict_filter : list string) : result query :=
  if existsb (fun attr => negb (odict_mem field_to_col_map attr))
       (map fst (map_to_list field_filter))
  then Raise ValueError
  else
    let '(fts_sql_filter, dfs_sql_filter) :=
      search_filters field_to_col_map free_text_search field_filter
        strict_filter in
    let sql_filter := concat_and_search_term fts_sql_filter dfs_sql_filter in
    match sql_filter with
    | Some f => filter q f
    | None => Ok q
    end.

End Database.

(** ** faraday/server/utils/database.py: records and sessions *)

Module Persistence.

Local Open Scope list_scope.

(** A stored record, or the attributes of an object: attribute to value.
    An attribute that is absent reads as [NULL]. *)
Abbreviation record := (gmap string value).

Definition cell (r : record) (col : string) : value :=
  default VNone (r !! col).

(** What this module reads of a mapped class: its name, its
    [__tablename__], for every column of its [__table__] the argument of
    the column default, if the column declares one, and the names of the
    attributes the class itself has. *)
Record model_class : Type := mk_class {
  cls_name : string;
  cls_tablename : option string;
  cls_columns : gmap string (option value);
  cls_attrs : list string;
}.

Record object : Type := mk_object {
  o_class : model_class;
  o_attrs : record;
}.

(** What this module reads and writes of a session: the records a query
    over a class returns, in the order the database returns them; the
    objects handed to [session.add]; and the unique constraints the
    inspector reflects for a table, each as its [column_names]. *)
Record session : Type := mk_session {
  s_rows : gmap string (list record);
  s_new : list (string * record);
  s_unique_constraints : gmap string (list (list string));
}.

(** [session.query(klass)] *)
Definition query_rows (s : session) (klass : model_class) : list record :=
  default [] (s_rows s !! cls_name klass).

(** [session.add(instance)] *)
Definition add (s : session) (model : model_class) (instance : record)
    : session :=
  mk_session (s_rows s) (s_new s ++ [(cls_name model, instance)])
    (s_unique_constraints s).

(** SQL comparison [col = v]; SQLAlchemy renders [col == None] as
    [col IS NULL], and [NULL = v] is not true. *)
Definition sql_eq (stored v : value) : bool :=
  match v with
  | VNone => bool_decide (stored = VNone)
  | _ => bool_decide (stored = v)
  end.

(** A keyword argument of [get_or_create]: a plain value, or a
    [ClauseElement], an expression the database evaluates on each row. *)
Inductive kwarg : Type :=
| KValue (v : value)
| KClause (e : record -> value).

Definition criterion (r : record) (col : string) (a : kwarg) : bool :=
  match a with
  | KValue v => sql_eq (cell r col) v
  | KClause e =>
      match e r with
      | VNone => false
      | v => bool_decide (cell r col = v)
      end
  end.

(** [query.filter_by] with the keyword arguments [kwargs], on one row. *)
Definition filter_by (kwargs : gmap string kwarg) (r : record) : bool :=
  forallb (fun kv => criterion r kv.1 kv.2) (map_to_list kwargs).

(** [query.first()] *)
Definition first {A : Type} (p : A -> bool) (rows : list A) : option A :=
  List.find p rows.

(** [{k: v for k, v in kwargs.items() if not isinstance(v, ClauseElement)}] *)
Definition non_clause (kwargs : gmap string kwarg) : record :=
  omap (fun a => match a with KValue v => Some v | KClause _ => None end)
    kwargs.

(** Returns [(instance, created)] and the session after the call. *)
Definition get_or_create (s : session) (model : model_class)
    (defaults : option record) (kwargs : gmap string kwarg)
    : (record * bool) * session :=
  let instance := first (filter_by kwargs) (query_rows s model) in
  match instance with
  | Some instance => ((instance, false), s)
  | None =>
      let params := non_clause kwargs in
      let params := default ∅ defaults ∪ params in
      let instance := params in
      let s := add s model instance in
      ((instance, true), s)
  end.

Definition get_object_type_for (instance : object) : result string :=
  let object_type := cls_tablename (o_class instance) in
  match object_type with
  | Some object_type => Ok object_type
  | None =>
      if str_in (cls_name (o_class instance))
           ["Vulnerability"; "VulnerabilityWeb"; "VulnerabilityCode"]
      then Ok "vulnerability"
      else Raise RuntimeError
  end.

Definition vulnerability_unique_fields : list string :=
  ["name"; "description"; "type"; "host_id"; "service_id"; "method";
   "parameter_name"; "path"; "website"; "workspace_id"].

(** [insp.get_unique_constraints(table_name)] *)
Definition get_unique_constraints (s : session) (table_name : string)
    : list (list string) :=
  default [] (s_unique_constraints s !! table_name).

(** The generator, as the list of what it yields (or the exception its
    first step raises). *)
Definition get_unique_fields (s : session) (instance : object)
    : result (list (list string)) :=
  table_name ← get_object_type_for instance;
  let unique_constraints :=
    if negb (String.eqb table_name "vulnerability")
    then get_unique_constraints s table_name
    else [vulnerability_unique_fields] in
  Ok unique_constraints.

(** Conditions [get_conflict_object] builds. *)
Inductive cond : Type :=
| CEq (col : string) (v : value)
| CIn (col : string) (vs : list value)
| CAnd (l r : cond).

Fixpoint eval_cond (c : cond) (r : record) : bool :=
  match c with
  | CEq col v => sql_eq (cell r col) v
  | CIn col vs =>
      negb (bool_decide (cell r col = VNone))
      && bool_decide (cell r col ∈ vs)
  | CAnd l r' => eval_cond l r && eval_cond r' r
  end.

(** [reduce(operator.and_, filter_data)] for a non-empty list. *)
Definition reduce_and (c : cond) (cs : list cond) : cond :=
  fold_left CAnd cs c.

(** [list.remove(x)]: drop the first occurrence. *)
Fixpoint remove_first (x : string) (l : list string) : list string :=
  match l with
  | [] => []
  | y :: rest => if String.eqb y x then rest else y :: remove_first x rest
  end.

Section ConflictObject.

(** [faraday.server.models.VulnerabilityGeneric], the class all
    vulnerability records are stored under. *)
Variable VulnerabilityGeneric : model_class.

(** Lines 275-284: one iteration of the loop over [unique_fields]. *)
Definition unique_field_step (klass : model_class) (obj : object)
    (data : record) (filter_data : list cond) (unique_field : string)
    : result (list cond) :=
  match cls_columns klass !! unique_field with
  | None => Raise KeyError
  | Some column_default =>
      value ←
        match data !! unique_field with
        | Some value => Ok value
        | None =>
            match o_attrs obj !! unique_field with
            | None => Raise AttributeError
            | Some value =>
                match column_default with
                | Some arg =>
                    if negb (truthy value) then Ok arg else Ok value
                | None => Ok value
                end
            end
        end;
      match value with
      | VNone => Ok filter_data
      | _ => Ok (filter_data ++ [CEq unique_field value])
      end
  end.

(** [table.columns[name]] for the table of [klass]. *)
Definition table_column (klass : model_class) (name : string)
    : result (option value) :=
  match cls_columns klass !! name with
  | Some column_default => Ok column_default
  | None => Raise KeyError
  end.

(** [klass.name], an attribute of the class itself. *)
Definition class_attribute (klass : model_class) (name : string)
    : result unit :=
  if str_in name (cls_attrs klass) then Ok tt else Raise AttributeError.

(** Lines 294-304: one iteration of the loop over [relations_fields]. *)
Definition relations_field_step (klass : model_class) (data : record)
    (filter_data : list cond) (relations_field : string)
    : result (list cond) :=
  let stripped := strip relations_field "_id" in
  if negb (bool_decide (is_Some (data !! relations_field)))
     && bool_decide (is_Some (data !! stripped))
  then
    match data !! stripped with
    | Some (VObj (Some id)) =>
        _ ← table_column klass relations_field;
        Ok (filter_data ++ [CEq relations_field (VInt id)])
    | Some (VObj None) => Raise AssertionError
    | _ => Raise AttributeError
    end
  else
    let relation_id := default VNone (data !! relations_field) in
    if truthy relation_id
    then
      _ ← table_column klass relations_field;
      Ok (filter_data ++ [CEq relations_field relation_id])
    else Ok filter_data.

(** Python [for x in xs: acc = step(acc, x)] with exceptions. *)
Fixpoint for_each {A S : Type} (step : S -> A -> result S) (xs : list A)
    (acc : S) : result S :=
  match xs with
  | [] => Ok acc
  | x :: rest => acc ← step acc x; for_each step rest acc
  end.

(** Lines 257-309: the body of the loop over the yielded column sets; it
    returns on every path. [workspace] is the [id] of the workspace
    object when one is passed; [ids] is [None] when no list is passed. *)
Definition conflict_for (s : session) (obj : object) (data : record)
    (workspace : option value) (ids : option (list value))
    (unique_fields : list string) : result (option record) :=
  let relations_fields :=
    List.filter (fun f => endswith f "_id") unique_fields in
  let unique_fields :=
    List.filter (fun f => negb (endswith f "_id")) unique_fields in
  object_type ← get_object_type_for obj;
  let klass :=
    if String.eqb object_type "vulnerability"
    then VulnerabilityGeneric else o_class obj in
  filter_data ← for_each (unique_field_step klass obj data) unique_fields [];
  '(relations_fields, filter_data) ←
    (if str_in "workspace_id" relations_fields then
       let relations_fields := remove_first "workspace_id" relations_fields in
       match workspace with
       | Some workspace_id =>
           _ ← table_column klass "workspace_id";
           Ok (relations_fields,
               filter_data ++ [CEq "workspace_id" workspace_id])
       | None =>
           _ ← class_attribute klass "workspace_id";
           _ ← class_attribute klass "id";
           ids ← match ids with
                 | Some ids => Ok ids
                 | None => Raise TypeError
                 end;
           let workspaces_ids :=
             map (fun r => cell r "workspace_id")
               (List.filter (fun r => eval_cond (CIn "id" ids) r)
                  (query_rows s klass)) in
           _ ← table_column klass "workspace_id";
           Ok (relations_fields,
               filter_data ++ [CIn "workspace_id" workspaces_ids])
       end
     else Ok (relations_fields, filter_data));
  filter_data ←
    for_each (relations_field_step klass data) relations_fields filter_data;
  match filter_data with
  | c :: cs =>
      let filter_data := reduce_and c cs in
      Ok (first (eval_cond filter_data) (query_rows s klass))
  | [] => Ok None
  end.

Definition get_conflict_object (s : session) (obj : object) (data : record)
    (workspace : option value) (ids : option (list value))
    : result (option record) :=
  unique_fields_gen ← get_unique_fields s obj;
  match unique_fields_gen with
  | unique_fields :: _ => conflict_for s obj data workspace ids unique_fields
  | [] => Ok None
  end.

End ConflictObject.

End Persistence.

(** ** faraday/migrations/versions/384784872dc1_add_weight_column_in_role.py *)

Module Migration.

Local Open Scope list_scope.

Inductive sql_type : Type :=
| Integer
| OtherSql (type_name : string).

(** [sa.Column(name, type, nullable=...)] *)
Record column_def : Type := mk_column_def {
  cd_name : string;
  cd_type : sql_type;
  cd_nullable : bool;
}.

(** A table: its columns in declaration order, and its rows. A row holds
    a value for every column; [VNone] is [NULL]. *)
Record table : Type := mk_table {
  tb_columns : list column_def;
  tb_rows : list (gmap string value);
}.

Abbreviation database := (gmap string table).

Definition column_names (t : table) : list string :=
  map cd_name (tb_columns t).

Definition has_column (t : table) (name : string) : bool :=
  bool_decide (name ∈ column_names t).

(** [op.add_column(table_name, column)]: existing rows read [NULL] in the
    new column, so a non-nullable column can only join an empty table. *)
Definition add_column (db : database) (table_name : string)
    (col : column_def) : result database :=
  match db !! table_name with
  | None => Raise ProgrammingError
  | Some t =>
      if has_column t (cd_name col) then Raise ProgrammingError
      else if negb (cd_nullable col)
              && negb (bool_decide (tb_rows t = [])) then Raise IntegrityError
      else Ok (<[table_name :=
                  mk_table (tb_columns t ++ [col])
                    (map (insert (cd_name col) VNone) (tb_rows t))]> db)
  end.

(** [UPDATE table_name set set_col=set_val WHERE where_col=where_val] *)
Record update : Type := mk_update {
  u_table : string;
  u_set_col : string;
  u_set_val : value;
  u_where_col : string;
  u_where_val : value;
}.

Definition update_row (u : update) (r : gmap string value)
    : gmap string value :=
  if bool_decide (r !! u_where_col u = Some (u_where_val u))
  then <[u_set_col u := u_set_val u]> r
  else r.

(** [op.execute(statement)] for an [UPDATE] statement. *)
Definition execute (db : database) (u : update) : result database :=
  match db !! u_table u with
  | None => Raise ProgrammingError
  | Some t =>
      if has_column t (u_set_col u) && has_column t (u_where_col u)
      then Ok (<[u_table u :=
                  mk_table (tb_columns t) (map (update_row u) (tb_rows t))]> db)
      else Raise ProgrammingError
  end.

Definition set_nullable (nullable : bool) (name : string) (c : column_def)
    : column_def :=
  if String.eqb (cd_name c) name
  then mk_column_def (cd_name c) (cd_type c) nullable
  else c.

(** [op.alter_column(table_name, column_name, nullable=...)]: the database
    refuses [NOT NULL] while a row holds [NULL] in the column. *)
Definition alter_column (db : database) (table_name column_name : string)
    (nullable : bool) : result database :=
  match db !! table_name with
  | None => Raise ProgrammingError
  | Some t =>
      if negb (has_column t column_name) then Raise ProgrammingError
      else if negb nullable
              && existsb (fun r => bool_decide (default VNone (r !! column_name) = VNone))
                   (tb_rows t)
      then Raise IntegrityError
      else Ok (<[table_name :=
                  mk_table (map (set_nullable nullable column_name) (tb_columns t))
                    (tb_rows t)]> db)
  end.

(** [op.drop_column(table_name, column_name)] *)
Definition drop_column (db : database) (table_name column_name : string)
    : result database :=
  match db !! table_name with
  | None => Raise ProgrammingError
  | Some t =>
      if negb (has_column t column_name) then Raise ProgrammingError
      else Ok (<[table_name :=
                  mk_table
                    (List.filter
                       (fun c => negb (String.eqb (cd_name c) column_name))
                       (tb_columns t))
                    (map (delete column_name) (tb_rows t))]> db)
  end.

Definition set_weight (weight : Z) (name : string) : update :=
  mk_update "faraday_role" "weight" (VInt weight) "name" (VStr name).

Definition upgrade (db : database) : result database :=
  db ← add_column db "faraday_role" (mk_column_def "weight" Integer true);
  db ← execute db (set_weight 40 "admin");
  db ← execute db (set_weight 30 "asset_owner");
  db ← execute db (set_weight 20 "pentester");
  db ← execute db (set_weight 10 "client");
  alter_column db "faraday_role" "weight" false.

Definition downgrade (db : database) : result database :=
  drop_column db "faraday_role" "weight".

End Migration.

(** ** faraday/server/utils/database.py: dialect-specific helpers *)

Module Dialect.

Local Open Scope list_scope.

Section GroupConcat.

(** The clauses of the function element, and [compiler.process], which
    renders one of them. *)
Variable expr : Type.
Variable process : expr -> string.

(** The PostgreSQL rendering of [GroupConcat]. An index past the end of
    [element.clauses.clauses] raises [IndexError]: [None]. *)
Definition _group_concat_postgresql (clauses : list expr) : option string :=
  separator ←
    (if Nat.eqb (length clauses) 2
     then process <$> clauses !! 1%nat
     else Some ",");
  first_clause ← clauses !! 0%nat;
  Some ("array_to_string(array_agg(" ++ process first_clause ++ "), '"
        ++ separator ++ "')")%string.

End GroupConcat.

Definition UNIQUE_VIOLATION : string := "23505".

Definition NOT_NULL_VIOLATION : string := "23502".

(** [dialect_name] is [db.engine.dialect.name] and [pgcode] is
    [exception.orig.pgcode]. *)
Definition is_unique_constraint_violation (dialect_name : string)
    (pgcode : value) : result bool :=
  if negb (String.eqb dialect_name "postgresql") then Ok true
  else
    match pgcode with
    | VStr code => Ok (String.eqb code UNIQUE_VIOLATION)
    | _ => Raise AssertionError
    end.

Definition not_null_constraint_violation (dialect_name : string)
    (pgcode : value) : result bool :=
  if negb (String.eqb dialect_name "postgresql") then Ok true
  else
    match pgcode with
    | VStr code => Ok (String.eqb code NOT_NULL_VIOLATION)
    | _ => Raise AssertionError
    end.

End Dialect.

(** ** Vocabulary of the statements *)

Module Spec.

Import Database.
Local Open Scope list_scope.

(** The conditions a filter joins with [OR], left to right. *)
Fixpoint or_terms (c : clause) : list clause :=
  match c with
  | Or l r => or_terms l ++ or_terms r
  | _ => [c]
  end.

Definition disjuncts (f : option clause) : list clause :=
  match f with
  | Some c => or_terms c
  | None => []
  end.

(** The column objects of a mapping entry; labels are not columns. *)
Definition real_columns (cols : list mapped) : list column :=
  omap (fun m => match m with Column c => Some c | Label _ => None end) cols.

(** The columns of the attributes in [attrs], in mapping order. *)
Definition columns_of (field_to_col_map : odict (list mapped))
    (attrs : list string) : list column :=
  flat_map (fun a => real_columns (items (odict_get field_to_col_map a))) attrs.

(** All columns configured in the mapping. *)
Definition all_columns (field_to_col_map : odict (list mapped)) : list column :=
  columns_of field_to_col_map (odict_keys field_to_col_map).

(** The attributes that have no entry in [field_filter]. *)
Definition unfiltered (field_to_col_map : odict (list mapped))
    (field_filter : gmap string string) : list string :=
  List.filter (fun a => bool_decide (field_filter !! a = None))
    (odict_keys field_to_col_map).

(** [term LIKE '%' + term + '%'] on a column. *)
Definition like_term (term : string) (c : column) : clause :=
  Like c ("%" ++ term ++ "%")%string.

(** A condition on one of the columns [cols] that is built from the
    field-filter value [value] alone: a pattern match on the value with a
    wildcard at both ends, an equality with the value, or a truth test of
    a Boolean column. *)
Definition uses_field_value (cols : list mapped) (value : string)
    (t : clause) : Prop :=
  exists c, Column c ∈ cols /\
    (t = like_term value c \/ t = OpEq c value \/
     (is_boolean c = true /\ exists b, t = Is c b)).

Import Persistence.

(** Conflict detection read literally: the candidate's value on a column
    is the one in [data], else the object's attribute, and a record is in
    conflict when its values on the unique columns equal the candidate's. *)
Definition candidate_value (obj : object) (data : record) (col : string)
    : value :=
  match data !! col with
  | Some v => v
  | None => cell (o_attrs obj) col
  end.

Definition same_unique_values (obj : object) (data : record)
    (cols : list string) (r : record) : bool :=
  forallb (fun col => bool_decide (cell r col = candidate_value obj data col))
    cols.

Definition conflict_as_stated (s : session) (klass : model_class)
    (obj : object) (data : record) (cols : list string) : option record :=
  first (same_unique_values obj data cols) (query_rows s klass).

(** What the candidate supplies for a plain unique column: the value in
    [data], else the object's attribute, replaced by the column default when
    it is falsy and the column declares one. [VNone] supplies nothing. *)
Definition supplied_value (klass : model_class) (obj : object)
    (data : record) (col : string) : value :=
  match data !! col with
  | Some v => v
  | None =>
      let v := cell (o_attrs obj) col in
      match cls_columns klass !! col with
      | Some (Some arg) => if truthy v then v else arg
      | _ => v
      end
  end.

(** What the candidate supplies for a relation column [x_id]: a truthy
    value of [data[x_id]], else the [id] of the object in [data[x]]. *)
Definition supplied_relation (data : record) (col : string) : value :=
  match data !! col with
  | Some v => if truthy v then v else VNone
  | None =>
      match data !! strip col "_id" with
      | Some (VObj (Some id)) => VInt id
      | _ => VNone
      end
  end.

(** A record agrees with a supplied value when the value is absent or the
    record holds it. *)
Definition agree_on (r : record) (col : string) (v : value) : bool :=
  match v with
  | VNone => true
  | _ => sql_eq (cell r col) v
  end.

(** The workspaces of the records whose [id] is among [ids]. *)
Definition workspaces_of (s : session) (klass : model_class)
    (ids : list value) : list value :=
  map (fun r => cell r "workspace_id")
    (List.filter
       (fun r => negb (bool_decide (cell r "id" = VNone))
                 && bool_decide (cell r "id" ∈ ids))
       (query_rows s klass)).

(** The record lives in the given workspace, or, when none is given, in the
    workspace of one of the records [ids]. *)
Definition in_workspace (s : session) (klass : model_class)
    (workspace : option value) (ids : option (list value)) (r : record)
    : bool :=
  match workspace with
  | Some workspace_id => sql_eq (cell r "workspace_id") workspace_id
  | None =>
      negb (bool_decide (cell r "workspace_id" = VNone))
      && bool_decide
           (cell r "workspace_id" ∈ workspaces_of s klass (default [] ids))
  end.

(** Some condition was collected. *)
Definition has_conditions (filter_data : list cond) : bool :=
  match filter_data with
  | [] => false
  | _ :: _ => true
  end.

Section Agreement.

Variable s : session.
Variable klass : model_class.
Variable obj : object.
Variable data : record.
Variable workspace : option value.
Variable ids : option (list value).

(** The record agrees with the candidate on one unique column. *)
Definition column_agrees (r : record) (col : string) : bool :=
  if endswith col "_id" then
    if String.eqb col "workspace_id"
    then in_workspace s klass workspace ids r
    else agree_on r col (supplied_relation data col)
  else agree_on r col (supplied_value klass obj data col).

Definition agrees (cols : list string) (r : record) : bool :=
  forallb (column_agrees r) cols.

(** The candidate supplies something to compare on the column. *)
Definition supplies (col : string) : bool :=
  if endswith col "_id" then
    if String.eqb col "workspace_id" then true
    else negb (bool_decide (supplied_relation data col = VNone))
  else negb (bool_decide (supplied_value klass obj data col = VNone)).

(** [name] is a column of the table of [klass]. *)
Definition is_column (name : string) : bool :=
  bool_decide (is_Some (cls_columns klass !! name)).

(** Reading the candidate raises nothing. Every plain unique column is a
    column of the table and is present in [data] or on the object. For
    [workspace_id] the table has the column and, when no workspace is
    given, the class has the attributes [workspace_id] and [id] and a list
    [ids] is given. A relation that [data] gives as an object gives an
    object with an [id]; and whenever a relation supplies an id, the table
    has its column. *)
Definition readable (col : string) : bool :=
  if endswith col "_id" then
    if String.eqb col "workspace_id" then
      match workspace with
      | Some _ => is_column "workspace_id"
      | None =>
          str_in "workspace_id" (cls_attrs klass)
          && str_in "id" (cls_attrs klass)
          && bool_decide (is_Some ids)
          && is_column "workspace_id"
      end
    else
      match data !! col with
      | Some v => negb (truthy v) || is_column col
      | None =>
          match data !! strip col "_id" with
          | Some (VObj (Some _)) => is_column col
          | None => true
          | _ => false
          end
      end
  else
    bool_decide (is_Some (cls_columns klass !! col))
    && (bool_decide (is_Some (data !! col))
        || bool_decide (is_Some (o_attrs obj !! col))).

End Agreement.

(** The weight the migration gives to a role name. *)
Definition role_weight (name : string) : value :=
  if String.eqb name "admin" then VInt 40
  else if String.eqb name "asset_owner" then VInt 30
  else if String.eqb name "pentester" then VInt 20
  else if String.eqb name "client" then VInt 10
  else VNone.

(** The column [name] of the table is declared with the type [String]. *)
Definition string_column (t : Migration.table) (name : string) : Prop :=
  exists c,
    c ∈ Migration.tb_columns t /\
    Migration.cd_name c = name /\
    Migration.cd_type c = Migration.OtherSql "String".

(** A role row with its weight. *)
Definition weighted (r : gmap string value) : gmap string value :=
  match r !! "name" with
  | Some (VStr name) => <["weight" := role_weight name]> r
  | _ => <["weight" := VNone]> r
  end.

(** The conditions a filter joins with [AND], left to right. *)
Fixpoint and_terms (c : clause) : list clause :=
  match c with
  | And l r => (and_terms l ++ and_terms r)%list
  | _ => [c]
  end.

Definition conjuncts (f : option clause) : list clause :=
  match f with
  | Some c => and_terms c
  | None => []
  end.

(** A filter built without [AND]. *)
Fixpoint no_and (c : clause) : bool :=
  match c with
  | And _ _ => false
  | Or l r => no_and l && no_and r
  | _ => true
  end.

Definition or_only (f : option clause) : bool :=
  match f with
  | Some c => no_and c
  | None => true
  end.

(** The attributes that have an entry in [field_filter]. *)
Definition filtered (field_to_col_map : odict (list mapped))
    (field_filter : gmap string string) : list string :=
  List.filter (fun a => bool_decide (is_Some (field_filter !! a)))
    (odict_keys field_to_col_map).

(** What a field filter with value [value] asks of one mapping entry of
    [attribute]: nothing of a label; of a Boolean column a truth test, or
    nothing when the value is not a truth value; of another column equality
    with the value when the attribute is strict, a pattern match
    otherwise. *)
Definition direct_terms (attribute value : string)
    (strict_filter : list string) (col : mapped) : list clause :=
  match col with
  | Label _ => []
  | Column c =>
      if is_boolean c then
        if bool_decide (lower value ∈ ["true"; "1"])
        then [Is c (Some true)]
        else if bool_decide (lower value ∈ ["false"; "0"])
             then [Is c (Some false); Is c None]
             else []
      else if bool_decide (attribute ∈ strict_filter)
           then [OpEq c value]
           else [like_term value c]
  end.

(** The filter a field filter builds for one attribute. *)
Definition direct_filter (field_to_col_map : odict (list mapped))
    (field_filter : gmap string string) (strict_filter : list string)
    (attribute : string) : option clause :=
  let value := default EmptyString (field_filter !! attribute) in
  attribute_filter field_to_col_map attribute true value strict_filter
    ("%" ++ value ++ "%")%string.

Definition is_label (col : mapped) : bool :=
  match col with
  | Label _ => true
  | Column _ => false
  end.

(** The rows a query returns out of the rows it selects: [OFFSET] skips,
    [LIMIT] cuts. *)
Definition page_rows {A : Type} (q : query) (rows : list A) : list A :=
  let rows :=
    match q_offset q with
    | Some n => skipn (Z.to_nat n) rows
    | None => rows
    end in
  match q_limit q with
  | Some n => firstn (Z.to_nat n) rows
  | None => rows
  end.

(** The rows of the first [n] pages, one page after the other. *)
Definition first_pages {A : Type} (q : query) (page_size : Z) (n : nat)
    (rows : list A) : list A :=
  flat_map
    (fun page =>
       match paginate q (Z.of_nat page) page_size with
       | Ok q' => page_rows q' rows
       | Raise _ => []
       end)
    (seq 0 n).

End Spec.

(** ** Example data *)

Module Examples.

Import Database.
Local Open Scope list_scope.

Definition q0 : query := mk_query [] [] None None.

Definition name_col : column := mk_column "name" (OtherType "String").
Definition desc_col : column := mk_column "description" (OtherType "Text").
Definition confirmed_col : column := mk_column "confirmed" Boolean.

Definition name_filter : gmap string string := {["name" := "xss"]}.

Definition vuln_map : odict (list mapped) :=
  [("name", [Column name_col]);
   ("description", [Column desc_col]);
   ("confirmed", [Column confirmed_col])].

(** A mapping that lists the [name] column under two attributes. *)
Definition shared_map : odict (list mapped) :=
  [("name", [Column name_col]);
   ("title", [Column name_col; Column desc_col])].

Import Persistence.

Definition host_class : model_class :=
  mk_class "Host" (Some "host")
    {["id" := None; "ip" := None; "os" := Some (VStr "unknown");
      "workspace_id" := None]}
    ["id"; "ip"; "os"; "workspace_id"].

Definition host_1 : record :=
  {["id" := VInt 1; "ip" := VStr "10.0.0.1"; "os" := VStr "linux";
    "workspace_id" := VInt 7]}.

Definition host_2 : record :=
  {["id" := VInt 2; "ip" := VStr "10.0.0.2"; "os" := VStr "bsd";
    "workspace_id" := VInt 7]}.

Definition hosts : session :=
  mk_session {["Host" := [host_1; host_2]]} []
    {["host" := [["ip"; "os"; "workspace_id"]]]}.

Definition by_ip (ip : string) : gmap string kwarg :=
  {["ip" := KValue (VStr ip)]}.

Definition vulnerability_generic : model_class :=
  mk_class "VulnerabilityGeneric" (Some "vulnerability")
    {["id" := None; "name" := None; "description" := None; "type" := None;
      "host_id" := None; "service_id" := None; "method" := None;
      "parameter_name" := None; "path" := None; "website" := None;
      "workspace_id" := None]}
    ["id"; "name"; "description"; "type"; "host_id"; "service_id"; "method";
     "parameter_name"; "path"; "website"; "workspace_id"].

Definition new_host : object :=
  mk_object host_class
    {["ip" := VStr "10.0.0.1"; "os" := VNone; "workspace_id" := VInt 7]}.

Definition new_host_data : record :=
  {["ip" := VStr "10.0.0.1"; "os" := VNone; "workspace_id" := VInt 7]}.

Import Migration.

Definition role_table : table :=
  mk_table
    [mk_column_def "id" Integer false;
     mk_column_def "name" (OtherSql "String") false]
    [{["id" := VInt 1; "name" := VStr "admin"]};
     {["id" := VInt 2; "name" := VStr "client"]}].

Definition roles_db : database := {["faraday_role" := role_table]}.

End Examples.

(** ** Properties of the query helpers *)

Import Database Spec.

(** C9: [concat_search_terms] treats [None] as the identity of both
    operators: joining a filter with [None] on either side returns the
    filter, [None] with [None] is [None]; two filters join into their
    conjunction under ['and'], their disjunction under ['or'], and into
    [None] under any other operator. *)
Theorem concat_search_terms_none_identity :
  forall (f g : clause) (operator : string),
    concat_search_terms (Some f) None operator = Some f /\
    concat_search_terms None (Some f) operator = Some f /\
    concat_search_terms None None operator = None /\
    concat_search_terms (Some f) (Some g) "and" = Some (And f g) /\
    concat_search_terms (Some f) (Some g) "or" = Some (Or f g) /\
    (operator <> "and" -> operator <> "or" ->
     concat_search_terms (Some f) (Some g) operator = None).
Proof.
  intros f g operator. repeat split; try reflexivity.
  intros Hand Hor. unfold concat_search_terms.
  destruct (String.eqb_spec operator "and") as [->|_]; [congruence|].
  destruct (String.eqb_spec operator "or") as [->|_]; [congruence|].
  reflexivity.
Qed.

Lemma concat_search_terms_none_identity_witness :
  concat_search_terms
    (Some (Is Examples.confirmed_col None))
    (Some (Is Examples.confirmed_col (Some true))) "xor" = None.
Proof.
  apply (concat_search_terms_none_identity
           (Is Examples.confirmed_col None)
           (Is Examples.confirmed_col (Some true)) "xor");
    intros H; discriminate H.
Defined.

(** C7: [paginate] raises [ValueError] exactly when [page < 0] or
    [page_size < 0]; otherwise it returns the query limited to [page_size]
    rows at an offset of [page * page_size] rows, everything else kept. *)
Theorem paginate_spec :
  forall (q : query) (page page_size : Z),
    (paginate q page page_size = Raise ValueError <->
     page < 0 \/ page_size < 0) /\
    (0 <= page -> 0 <= page_size ->
     exists q',
       paginate q page page_size = Ok q' /\
       q' = offset (limit q page_size) (page * page_size) /\
       q_limit q' = Some page_size /\
       q_offset q' = Some (page * page_size) /\
       q_filter q' = q_filter q /\
       q_order_by q' = q_order_by q).
Proof.
  intros q page page_size. unfold paginate.
  destruct (Z.geb_spec page 0) as [Hp|Hp];
    destruct (Z.geb_spec page_size 0) as [Hs|Hs]; simpl; split;
    try (split; [intros; lia | intros; reflexivity]);
    try (split; [discriminate | lia]);
    try (intros; lia).
  intros _ _. eexists. repeat split.
Qed.

Lemma paginate_spec_witness :
  exists q',
    paginate Examples.q0 2 25 = Ok q' /\
    q' = offset (limit Examples.q0 25) (2 * 25) /\
    q_limit q' = Some 25 /\
    q_offset q' = Some (2 * 25) /\
    q_filter q' = q_filter Examples.q0 /\
    q_order_by q' = q_order_by Examples.q0.
Proof.
  apply (proj2 (paginate_spec Examples.q0 2 25)); lia.
Defined.

(** What [sort_results] falls back to: the default ordering if one is
    given, the query itself otherwise. *)
Lemma sort_results_fallback (q : query) (default : option order_term) :
  (if list_truthy (match default with Some d => Some [d] | None => None end)
   then order_by q (items (match default with Some d => Some [d] | None => None end))
   else Ok q)
  = match default with Some d => order_by q [d] | None => Ok q end.
Proof. destruct default; reflexivity. Qed.

(** On a query without [LIMIT] and [OFFSET] the two calls are accepted. *)
Lemma filter_unpaged (q : query) (c : clause) :
  has_limit_offset q = false ->
  filter q c
  = Ok (mk_query (q_filter q ++ [c]) (q_order_by q) (q_limit q) (q_offset q)).
Proof. intros Hq. unfold filter. by rewrite Hq. Qed.

Lemma order_by_unpaged (q : query) (cols : list order_term) :
  has_limit_offset q = false ->
  order_by q cols
  = Ok (mk_query (q_filter q) (q_order_by q ++ cols) (q_limit q) (q_offset q)).
Proof. intros Hq. unfold order_by. by rewrite Hq. Qed.

(** C6: when the mapping holds a non-empty column list for [order_field]
    and [order_dir] is ['asc'] or ['desc'], [sort_results] orders the query
    by every one of those columns in that direction; for an unknown field,
    an empty column list or any other direction it applies the default
    ordering if one is given and returns the query unchanged otherwise.
    Ordering is the [order_by] call of the query: on a query without
    [LIMIT] and [OFFSET] it returns the query with the columns appended to
    its ordering. *)
Theorem sort_results_spec :
  forall (q : query) (field_to_col_map : odict (list mapped))
         (order_field order_dir : string) (default : option order_term),
    (forall cols,
       odict_get field_to_col_map order_field = Some cols -> cols <> [] ->
       (order_dir = "asc" ->
        sort_results q field_to_col_map order_field order_dir default
        = order_by q (map Asc cols)) /\
       (order_dir = "desc" ->
        sort_results q field_to_col_map order_field order_dir default
        = order_by q (map Desc cols))) /\
    (odict_get field_to_col_map order_field = None \/
     odict_get field_to_col_map order_field = Some [] \/
     (order_dir <> "asc" /\ order_dir <> "desc") ->
     sort_results q field_to_col_map order_field order_dir default
     = match default with Some d => order_by q [d] | None => Ok q end) /\
    (has_limit_offset q = false ->
     forall cols,
       order_by q cols
       = Ok (mk_query (q_filter q) (q_order_by q ++ cols)%list (q_limit q)
               (q_offset q))).
Proof.
  intros q m order_field order_dir default.
  split; [|split; [|intros Hq cols; by apply order_by_unpaged]].
  - intros cols Hget Hne. unfold sort_results. rewrite Hget.
    destruct cols as [|c cols]; [congruence|].
    split; intros ->; reflexivity.
  - intros Hcase. unfold sort_results.
    destruct Hcase as [Hget | [Hget | [Hasc Hdesc]]].
    + rewrite Hget. cbn [list_truthy andb]. apply sort_results_fallback.
    + rewrite Hget. cbn [list_truthy andb]. apply sort_results_fallback.
    + assert (Hdir : str_in order_dir
                [ORDER_DIRECTIONS.ASCENDING; ORDER_DIRECTIONS.DESCENDING] = false).
      { unfold str_in. apply bool_decide_eq_false.
        rewrite !elem_of_cons, elem_of_nil.
        unfold ORDER_DIRECTIONS.ASCENDING, ORDER_DIRECTIONS.DESCENDING.
        tauto. }
      rewrite Hdir, andb_false_r. apply sort_results_fallback.
Qed.

Lemma sort_results_spec_witness :
  sort_results Examples.q0 Examples.vuln_map "name" "desc" None
  = order_by Examples.q0 (map Desc [Column Examples.name_col]) /\
  sort_results Examples.q0 Examples.vuln_map "severity" "asc"
    (Some (Plain (Label "id")))
  = order_by Examples.q0 [Plain (Label "id")].
Proof.
  split.
  - apply (proj1 (sort_results_spec Examples.q0 Examples.vuln_map
                    "name" "desc" None) [Column Examples.name_col]);
      [reflexivity | discriminate | reflexivity].
  - apply (proj1 (proj2 (sort_results_spec Examples.q0 Examples.vuln_map
                           "severity" "asc" (Some (Plain (Label "id")))))).
    left. reflexivity.
Defined.

(** [k in field_to_col_map] in terms of [get]. *)
Lemma odict_mem_false {V : Type} (d : odict V) (k : string) :
  odict_mem d k = false <-> odict_get d k = None.
Proof. unfold odict_mem. destruct (odict_get d k); split; congruence. Qed.

(** The guard of [apply_search_filter]: some key of [field_filter] is not
    mapped. *)
Lemma unmapped_key_guard (field_to_col_map : odict (list mapped))
    (field_filter : gmap string string) :
  existsb (fun attr => negb (odict_mem field_to_col_map attr))
    (map fst (map_to_list field_filter)) = true
  <-> exists k, is_Some (field_filter !! k) /\ odict_get field_to_col_map k = None.
Proof.
  rewrite existsb_exists. split.
  - intros (k & Hin & Hmem). exists k.
    apply in_map_iff in Hin as ([k' v] & Hk & Hin). simpl in Hk. subst k'.
    apply list_elem_of_In in Hin. apply elem_of_map_to_list in Hin.
    split; [by eexists|].
    apply odict_mem_false. by destruct (odict_mem field_to_col_map k).
  - intros (k & [v Hv] & Hget). exists k. split.
    + apply in_map_iff. exists (k, v). split; [done|].
      apply list_elem_of_In. by apply elem_of_map_to_list.
    + apply odict_mem_false in Hget. by rewrite Hget.
Qed.

(** C10: [apply_search_filter] raises [ValueError] whenever some key of
    [field_filter] is not a key of [field_to_col_map], whatever the other
    arguments are and with no query returned; when every key is mapped it
    raises no [ValueError], and it returns a query whenever the given query
    has no [LIMIT] or [OFFSET] that would make the [filter] call fail. *)
Theorem apply_search_filter_unmapped_key :
  forall (q : query) (field_to_col_map : odict (list mapped))
         (free_text_search : option string)
         (field_filter : gmap string string) (strict_filter : list string),
    ((exists k, is_Some (field_filter !! k) /\
                odict_get field_to_col_map k = None) ->
     apply_search_filter q field_to_col_map free_text_search field_filter
       strict_filter = Raise ValueError) /\
    ((forall k, is_Some (field_filter !! k) ->
                is_Some (odict_get field_to_col_map k)) ->
     apply_search_filter q field_to_col_map free_text_search field_filter
       strict_filter <> Raise ValueError /\
     (has_limit_offset q = false ->
      exists q',
        apply_search_filter q field_to_col_map free_text_search field_filter
          strict_filter = Ok q')).
Proof.
  intros q m fts ff strict. unfold apply_search_filter. split.
  - intros Hex. apply unmapped_key_guard in Hex. by rewrite Hex.
  - intros Hall.
    destruct (existsb _ _) eqn:Hguard.
    + apply unmapped_key_guard in Hguard as (k & Hk & Hnone).
      apply Hall in Hk as [cols Hcols]. congruence.
    + destruct (search_filters m fts ff strict) as [f d].
      destruct (concat_and_search_term f d) as [c|].
      * unfold filter. split.
        -- by destruct (has_limit_offset q).
        -- intros ->. by eexists.
      * split; [discriminate | by eexists].
Qed.

Lemma apply_search_filter_unmapped_key_witness :
  apply_search_filter Examples.q0 Examples.vuln_map (Some "sql")
    {["severity" := "high"]} [] = Raise ValueError /\
  exists q',
    apply_search_filter Examples.q0 Examples.vuln_map (Some "sql")
      {["name" := "xss"]} [] = Ok q'.
Proof.
  split.
  - apply (proj1 (apply_search_filter_unmapped_key Examples.q0
                    Examples.vuln_map (Some "sql") {["severity" := "high"]} [])).
    exists "severity". split; [by eexists | reflexivity].
  - apply (proj2 (apply_search_filter_unmapped_key Examples.q0
                    Examples.vuln_map (Some "sql") {["name" := "xss"]} []));
      [|reflexivity].
    intros k [v Hv]. apply lookup_singleton_Some in Hv as [<- _].
    by eexists.
Defined.

(** Membership of a search term in the two word lists of
    [prepare_boolean_filter]. *)
Lemma str_in_pair (s a b : string) :
  str_in s [a; b] = true <-> s = a \/ s = b.
Proof.
  unfold str_in. rewrite bool_decide_eq_true, !elem_of_cons, elem_of_nil.
  tauto.
Qed.

Lemma prepare_boolean_filter_true (c : column) (s : string) :
  s = "true" \/ s = "1" ->
  prepare_boolean_filter c s = Some (Is c (Some true)).
Proof.
  intros H. unfold prepare_boolean_filter.
  apply str_in_pair in H. by rewrite H.
Qed.

Lemma prepare_boolean_filter_false (c : column) (s : string) :
  s = "false" \/ s = "0" ->
  prepare_boolean_filter c s = Some (Or (Is c (Some false)) (Is c None)).
Proof.
  intros H. unfold prepare_boolean_filter.
  assert (Hnot : str_in s ["true"; "1"] = false).
  { apply not_true_is_false. rewrite str_in_pair.
    destruct H as [-> | ->]; intros [?|?]; discriminate. }
  apply str_in_pair in H. by rewrite Hnot, H.
Qed.

Lemma prepare_boolean_filter_other (c : column) (s : string) :
  s ∉ ["true"; "1"; "false"; "0"] ->
  prepare_boolean_filter c s = None.
Proof.
  intros H. unfold prepare_boolean_filter.
  assert (Ht : str_in s ["true"; "1"] = false).
  { apply not_true_is_false. rewrite str_in_pair. intros Hin. apply H.
    rewrite !elem_of_cons. tauto. }
  assert (Hf : str_in s ["false"; "0"] = false).
  { apply not_true_is_false. rewrite str_in_pair. intros Hin. apply H.
    rewrite !elem_of_cons. tauto. }
  by rewrite Ht, Hf.
Qed.

(** A field filter on an attribute mapped to a single column: the query is
    filtered by what the column contributes, or returned as it is when the
    column contributes nothing. *)
Lemma apply_search_filter_single (q : query) (attribute value : string)
    (c : column) (fts : option string) (strict_filter : list string) :
  apply_search_filter q [(attribute, [Column c])] fts
    {[attribute := value]} strict_filter
  = match column_step attribute true value strict_filter
            ("%" ++ value ++ "%") None (Column c) with
    | Some f => filter q f
    | None => Ok q
    end.
Proof.
  unfold apply_search_filter, search_filters, attribute_step, attribute_filter.
  rewrite map_to_list_singleton. cbn [map fst existsb odict_keys fold_left].
  unfold odict_mem. cbn [odict_get]. rewrite String.eqb_refl.
  cbn [negb orb items fold_left].
  rewrite lookup_singleton_eq.
  rewrite bool_decide_eq_true_2 by (by eexists).
  cbn [default negb andb].
  by destruct (column_step _ _ _ _ _ _ _).
Qed.

(** C3: a field filter on a Boolean column lower-cases the search value;
    ['true'] and ['1'] give [column IS TRUE], ['false'] and ['0'] give
    [(column IS FALSE) OR (column IS NULL)], and any other value makes the
    column contribute nothing, with no error: the query comes back as it
    was when the column is the only one filtered. A condition that is built
    goes to the [filter] call of the query, which on a query without
    [LIMIT] and [OFFSET] returns the query with the condition added. *)
Theorem boolean_field_filter_normalized :
  forall (q : query) (attribute name value like_str : string)
         (strict_filter : list string) (acc : option clause)
         (fts : option string),
    let c := mk_column name Boolean in
    let field_to_col_map := [(attribute, [Column c])] in
    let field_filter : gmap string string := {[attribute := value]} in
    (lower value = "true" \/ lower value = "1" ->
     column_step attribute true value strict_filter like_str acc (Column c)
     = concat_or_search_term acc (Some (Is c (Some true))) /\
     apply_search_filter q field_to_col_map fts field_filter strict_filter
     = filter q (Is c (Some true))) /\
    (lower value = "false" \/ lower value = "0" ->
     column_step attribute true value strict_filter like_str acc (Column c)
     = concat_or_search_term acc
         (Some (Or (Is c (Some false)) (Is c None))) /\
     apply_search_filter q field_to_col_map fts field_filter strict_filter
     = filter q (Or (Is c (Some false)) (Is c None))) /\
    (lower value ∉ ["true"; "1"; "false"; "0"] ->
     column_step attribute true value strict_filter like_str acc (Column c)
     = acc /\
     apply_search_filter q field_to_col_map fts field_filter strict_filter
     = Ok q) /\
    (has_limit_offset q = false ->
     forall f,
       filter q f
       = Ok (mk_query (q_filter q ++ [f])%list (q_order_by q) (q_limit q)
               (q_offset q))).
Proof.
  intros q attribute name value like_str strict acc fts c m ff.
  subst m ff.
  split; [|split; [|split; [|intros Hq f; by apply filter_unpaged]]];
    repeat split.
  - cbn [column_step is_boolean col_ty c andb].
    by rewrite prepare_boolean_filter_true.
  - rewrite apply_search_filter_single.
    cbn [column_step is_boolean col_ty c andb].
    by rewrite prepare_boolean_filter_true.
  - cbn [column_step is_boolean col_ty c andb].
    by rewrite prepare_boolean_filter_false.
  - rewrite apply_search_filter_single.
    cbn [column_step is_boolean col_ty c andb].
    by rewrite prepare_boolean_filter_false.
  - cbn [column_step is_boolean col_ty c andb].
    by rewrite prepare_boolean_filter_other.
  - rewrite apply_search_filter_single.
    cbn [column_step is_boolean col_ty c andb].
    by rewrite prepare_boolean_filter_other.
Qed.

Lemma boolean_field_filter_normalized_witness :
  apply_search_filter Examples.q0 [("confirmed", [Column Examples.confirmed_col])]
    (Some "sql") {["confirmed" := "TRUE"]} []
  = filter Examples.q0 (Is Examples.confirmed_col (Some true)) /\
  apply_search_filter Examples.q0 [("confirmed", [Column Examples.confirmed_col])]
    None {["confirmed" := "False"]} ["confirmed"]
  = filter Examples.q0
      (Or (Is Examples.confirmed_col (Some false))
          (Is Examples.confirmed_col None)) /\
  apply_search_filter Examples.q0 [("confirmed", [Column Examples.confirmed_col])]
    None {["confirmed" := "yes"]} []
  = Ok Examples.q0.
Proof.
  split; [|split].
  - apply (proj1 (boolean_field_filter_normalized Examples.q0 "confirmed"
             "confirmed" "TRUE" "%TRUE%" [] None (Some "sql"))).
    left. reflexivity.
  - apply (proj1 (proj2 (boolean_field_filter_normalized Examples.q0
             "confirmed" "confirmed" "False" "%False%" ["confirmed"] None None))).
    left. reflexivity.
  - apply (proj1 (proj2 (proj2 (boolean_field_filter_normalized Examples.q0
             "confirmed" "confirmed" "yes" "%yes%" [] None None)))).
    apply (bool_decide_unpack _). vm_compute. exact I.
Defined.

(** *** The two filters of [apply_search_filter] *)

Section SearchFilters.

Variable field_to_col_map : odict (list mapped).
Variable strict_filter : list string.

Lemma disjuncts_concat_or (a b : option clause) :
  disjuncts (concat_or_search_term a b) = (disjuncts a ++ disjuncts b)%list.
Proof.
  destruct a, b; cbn; rewrite ?app_nil_r; reflexivity.
Qed.

(** An attribute with a field filter feeds the direct filter only. *)
Lemma attribute_step_direct (fts : option string)
    (field_filter : gmap string string) (attribute value : string)
    (f d : option clause) :
  field_filter !! attribute = Some value ->
  attribute_step field_to_col_map fts field_filter strict_filter (f, d) attribute
  = (f, concat_and_search_term d
          (attribute_filter field_to_col_map attribute true value
             strict_filter ("%" ++ value ++ "%"))).
Proof.
  intros Hv. unfold attribute_step. rewrite Hv.
  rewrite bool_decide_eq_true_2 by (by eexists). reflexivity.
Qed.

(** An attribute without a field filter feeds the free-text filter, and
    only when a non-empty term is searched. *)
Lemma attribute_step_free (fts : option string)
    (field_filter : gmap string string) (attribute : string)
    (f d : option clause) :
  field_filter !! attribute = None ->
  attribute_step field_to_col_map fts field_filter strict_filter (f, d) attribute
  = if str_truthy fts
    then (concat_or_search_term f
            (attribute_filter field_to_col_map attribute false EmptyString
               strict_filter ("%" ++ default EmptyString fts ++ "%")), d)
    else (f, d).
Proof.
  intros Hv. unfold attribute_step. rewrite Hv.
  rewrite bool_decide_eq_false_2 by (intros [? ?]; discriminate).
  cbn [negb andb default]. by destruct (str_truthy fts).
Qed.

(** The direct filter does not depend on the free-text term. *)
Lemma direct_filter_ignores_free_text (fts fts' : option string)
    (field_filter : gmap string string) (attrs : list string) :
  forall f f' d,
    (fold_left (attribute_step field_to_col_map fts field_filter strict_filter)
       attrs (f, d)).2
    = (fold_left (attribute_step field_to_col_map fts' field_filter strict_filter)
         attrs (f', d)).2.
Proof.
  induction attrs as [|a attrs IH]; intros f f' d; [reflexivity|].
  cbn [fold_left].
  destruct (field_filter !! a) as [v|] eqn:Hv.
  - rewrite !(attribute_step_direct _ _ _ v) by done. apply IH.
  - rewrite !attribute_step_free by done.
    destruct (str_truthy fts), (str_truthy fts'); apply IH.
Qed.

(** The free-text filter is the one free-text search alone builds over the
    attributes that have no field filter. *)
Lemma free_text_filter_skips_filtered (fts : option string)
    (field_filter : gmap string string) (attrs : list string) :
  forall f d d',
    (fold_left (attribute_step field_to_col_map fts field_filter strict_filter)
       attrs (f, d)).1
    = (fold_left (attribute_step field_to_col_map fts ∅ strict_filter)
         (List.filter (fun a => bool_decide (field_filter !! a = None)) attrs)
         (f, d')).1.
Proof.
  induction attrs as [|a attrs IH]; intros f d d'; [reflexivity|].
  cbn [fold_left List.filter].
  destruct (field_filter !! a) as [v|] eqn:Hv.
  - rewrite (attribute_step_direct _ _ _ v) by done.
    rewrite bool_decide_eq_false_2 by discriminate. apply IH.
  - rewrite attribute_step_free by done.
    rewrite bool_decide_eq_true_2 by done. cbn [fold_left].
    rewrite attribute_step_free by apply lookup_empty.
    destruct (str_truthy fts); apply IH.
Qed.

(** Every condition a field filter builds for an attribute is on one of
    the attribute's columns and uses the field value. *)
Lemma direct_conditions_use_value (attribute value : string)
    (all cols : list mapped) :
  forall acc,
    (forall x, x ∈ cols -> x ∈ all) ->
    Forall (uses_field_value all value) (disjuncts acc) ->
    Forall (uses_field_value all value)
      (disjuncts
         (fold_left
            (column_step attribute true value strict_filter
               ("%" ++ value ++ "%"))
            cols acc)).
Proof.
  induction cols as [|x cols IH]; intros acc Hsub Hacc; [exact Hacc|].
  cbn [fold_left]. apply IH.
  { intros y Hy. apply Hsub. by right. }
  destruct x as [l|c]; [exact Hacc|].
  assert (Hc : Column c ∈ all) by (apply Hsub; left).
  cbn [column_step andb].
  destruct (is_boolean c) eqn:Hbool.
  - unfold prepare_boolean_filter.
    destruct (str_in (lower value) ["true"; "1"]).
    + rewrite disjuncts_concat_or. apply Forall_app. split; [done|].
      constructor; [|constructor]. exists c. eauto 8.
    + destruct (str_in (lower value) ["false"; "0"]); [|done].
      rewrite disjuncts_concat_or. apply Forall_app. split; [done|].
      cbn [disjuncts or_terms app].
      constructor; [|constructor; [|constructor]]; exists c; eauto 8.
  - rewrite disjuncts_concat_or. apply Forall_app. split; [done|].
    destruct (str_in attribute strict_filter);
      (constructor; [|constructor]); exists c; (split; [done|]);
      [right|]; left; reflexivity.
Qed.

(** Free-text search puts the same pattern on every column object of an
    attribute. *)
Lemma free_text_conditions (attribute like_str : string) (cols : list mapped) :
  forall acc,
    disjuncts
      (fold_left (column_step attribute false EmptyString strict_filter like_str)
         cols acc)
    = (disjuncts acc ++ map (fun c => Like c like_str) (real_columns cols))%list.
Proof.
  induction cols as [|x cols IH]; intros acc.
  - cbn. by rewrite app_nil_r.
  - cbn [fold_left]. rewrite IH. destruct x as [l|c]; [reflexivity|].
    cbn [column_step andb real_columns omap list_omap].
    rewrite disjuncts_concat_or. cbn [map disjuncts or_terms].
    by rewrite <- app_assoc.
Qed.

(** The free-text filter over a list of unfiltered attributes. *)
Lemma free_text_disjuncts (term : string) (attrs : list string) :
  term <> EmptyString ->
  forall f d,
    disjuncts
      (fold_left (attribute_step field_to_col_map (Some term) ∅ strict_filter)
         attrs (f, d)).1
    = (disjuncts f
       ++ map (like_term term) (columns_of field_to_col_map attrs))%list.
Proof.
  intros Hterm.
  assert (Htruthy : str_truthy (Some term) = true)
    by (destruct term; [done | reflexivity]).
  induction attrs as [|a attrs IH]; intros f d.
  - cbn. by rewrite app_nil_r.
  - cbn [fold_left]. rewrite attribute_step_free by apply lookup_empty.
    rewrite Htruthy, IH, disjuncts_concat_or.
    unfold attribute_filter. rewrite free_text_conditions.
    cbn [disjuncts app default]. unfold columns_of. cbn [flat_map].
    rewrite map_app, <- app_assoc. reflexivity.
Qed.

End SearchFilters.

(** C2, as stated, fails: with a field filter on [name], the free-text
    term is not matched against the [name] column. *)
Lemma free_text_all_columns_counterexample :
  disjuncts
    (search_filters Examples.vuln_map (Some "sql") Examples.name_filter []).1
  <> map (like_term "sql") (all_columns Examples.vuln_map).
Proof. vm_compute. discriminate. Qed.

(** C2, amended: a non-empty free-text term is matched, by [LIKE] with a
    wildcard at both ends, against every column object of every attribute
    that has no entry in [field_filter], and these conditions are joined
    with [OR] into the free-text filter; without field filters that is
    every column object of the mapping, and the filter is the one the
    [filter] call of the query receives, which on a query without [LIMIT]
    and [OFFSET] returns the query with the filter added. *)
Theorem free_text_search_like_all_unfiltered :
  forall (q : query) (field_to_col_map : odict (list mapped)) (term : string)
         (field_filter : gmap string string) (strict_filter : list string),
    term <> EmptyString ->
    disjuncts
      (search_filters field_to_col_map (Some term) field_filter strict_filter).1
    = map (like_term term)
        (columns_of field_to_col_map (unfiltered field_to_col_map field_filter)) /\
    let fts_sql_filter :=
      (search_filters field_to_col_map (Some term) ∅ strict_filter).1 in
    disjuncts fts_sql_filter
    = map (like_term term) (all_columns field_to_col_map) /\
    apply_search_filter q field_to_col_map (Some term) ∅ strict_filter
    = match fts_sql_filter with
      | Some f => filter q f
      | None => Ok q
      end /\
    (has_limit_offset q = false ->
     forall f,
       filter q f
       = Ok (mk_query (q_filter q ++ [f])%list (q_order_by q) (q_limit q)
               (q_offset q))).
Proof.
  intros q m term ff strict Hterm.
  assert (Hgen : forall ff',
    disjuncts (search_filters m (Some term) ff' strict).1
    = map (like_term term) (columns_of m (unfiltered m ff'))).
  { intros ff'. unfold search_filters.
    rewrite (free_text_filter_skips_filtered _ _ _ _ _ None None None).
    by rewrite free_text_disjuncts. }
  split; [apply Hgen|]. cbn zeta.
  split; [|split; [|intros Hq f; by apply filter_unpaged]].
  - rewrite Hgen. unfold unfiltered, all_columns. f_equal. f_equal.
    induction (odict_keys m) as [|a l IH]; [reflexivity|].
    cbn [List.filter]. rewrite lookup_empty.
    rewrite bool_decide_eq_true_2 by done. by rewrite IH.
  - unfold apply_search_filter. rewrite map_to_list_empty. cbn [map existsb].
    pose proof (direct_filter_ignores_free_text m strict (Some term) None ∅
                  (odict_keys m) None None None) as Hd.
    fold (search_filters m (Some term) ∅ strict) in Hd.
    destruct (search_filters m (Some term) ∅ strict) as [f d].
    cbn [fst snd] in *. subst d.
    assert (Hnone : forall l st,
      fold_left (attribute_step m None ∅ strict) l st = st).
    { induction l as [|a l IH]; intros [f' d']; [reflexivity|].
      cbn [fold_left]. rewrite attribute_step_free by apply lookup_empty.
      apply IH. }
    rewrite Hnone. by destruct f.
Qed.

Lemma free_text_search_like_all_unfiltered_witness :
  disjuncts
    (search_filters Examples.vuln_map (Some "sql") Examples.name_filter []).1
  = map (like_term "sql")
      (columns_of Examples.vuln_map
         (unfiltered Examples.vuln_map Examples.name_filter)).
Proof.
  apply (free_text_search_like_all_unfiltered Examples.q0 Examples.vuln_map
           "sql" Examples.name_filter []).
  discriminate.
Defined.

(** ** Properties of the persistence helpers *)

Import Persistence.

(** A row passes [filter_by] when it meets the criterion of every keyword. *)
Lemma filter_by_true (kwargs : gmap string kwarg) (r : record) :
  filter_by kwargs r = true
  <-> forall k a, kwargs !! k = Some a -> criterion r k a = true.
Proof.
  unfold filter_by. rewrite forallb_forall. split.
  - intros H k a Hk. apply (H (k, a)).
    apply list_elem_of_In. by apply elem_of_map_to_list.
  - intros H [k a] Hin. apply H.
    apply list_elem_of_In in Hin. by apply elem_of_map_to_list in Hin.
Qed.

(** The parameters of a created instance: a default wins over a keyword
    value, and a keyword bound to a clause gives no parameter. *)
Lemma created_params_lookup (defaults : option record)
    (kwargs : gmap string kwarg) (k : string) :
  (default ∅ defaults ∪ non_clause kwargs) !! k
  = match default ∅ defaults !! k with
    | Some v => Some v
    | None =>
        match kwargs !! k with
        | Some (KValue v) => Some v
        | _ => None
        end
    end.
Proof.
  rewrite lookup_union. unfold non_clause. rewrite lookup_omap.
  destruct (default ∅ defaults !! k) as [v|];
    destruct (kwargs !! k) as [[v'|e]|]; reflexivity.
Qed.



(** ** Properties of the role-weight migration *)

Import Migration.

Section RoleWeight.

Local Open Scope list_scope.

(** One [UPDATE] statement of the migration on a row. *)
Lemma update_row_weight (w : Z) (name : string) (old : value)
    (r : gmap string value) :
  update_row (set_weight w name) (<["weight" := old]> r)
  = if bool_decide (r !! "name" = Some (VStr name))
    then <["weight" := VInt w]> r
    else <["weight" := old]> r.
Proof.
  unfold update_row, set_weight.
  cbn [u_where_col u_where_val u_set_col u_set_val].
  rewrite lookup_insert_ne by done.
  case_bool_decide; [apply insert_insert_eq | reflexivity].
Qed.

Ltac weight_update Hr :=
  rewrite update_row_weight, Hr;
  first [ rewrite bool_decide_eq_true_2 by congruence
        | rewrite bool_decide_eq_false_2 by congruence ].

(** The four [UPDATE] statements, applied to a row whose [weight] is still
    [NULL], give the row its weight. *)
Lemma weight_updates_row (r : gmap string value) :
  update_row (set_weight 10 "client")
    (update_row (set_weight 20 "pentester")
       (update_row (set_weight 30 "asset_owner")
          (update_row (set_weight 40 "admin") (<["weight" := VNone]> r))))
  = weighted r.
Proof.
  unfold weighted.
  destruct (r !! "name") as [[| | |n|]|] eqn:Hr;
    try (do 4 weight_update Hr; reflexivity).
  unfold role_weight.
  destruct (String.eqb_spec n "admin") as [->|?];
    [do 4 weight_update Hr; reflexivity|].
  destruct (String.eqb_spec n "asset_owner") as [->|?];
    [do 4 weight_update Hr; reflexivity|].
  destruct (String.eqb_spec n "pentester") as [->|?];
    [do 4 weight_update Hr; reflexivity|].
  destruct (String.eqb_spec n "client") as [->|?];
    do 4 weight_update Hr; reflexivity.
Qed.

Variable db : database.

Lemma add_column_role (t : table) (col : column_def) :
  db !! "faraday_role" = Some t ->
  cd_name col ∉ column_names t ->
  cd_nullable col = true ->
  add_column db "faraday_role" col
  = Ok (<["faraday_role" :=
           mk_table (tb_columns t ++ [col])
             (map (insert (cd_name col) VNone) (tb_rows t))]> db).
Proof.
  intros Ht Hfresh Hnull. unfold add_column, has_column. rewrite Ht.
  rewrite bool_decide_eq_false_2 by done. by rewrite Hnull.
Qed.

Lemma execute_role (t : table) (u : update) :
  u_table u = "faraday_role" ->
  u_set_col u ∈ column_names t ->
  u_where_col u ∈ column_names t ->
  execute (<["faraday_role" := t]> db) u
  = Ok (<["faraday_role" :=
           mk_table (tb_columns t) (map (update_row u) (tb_rows t))]> db).
Proof.
  intros Hu Hset Hwhere. unfold execute, has_column.
  rewrite Hu, lookup_insert_eq.
  rewrite !bool_decide_eq_true_2 by done.
  cbn [andb]. by rewrite insert_insert_eq.
Qed.

Lemma alter_column_role (t : table) (column_name : string) :
  column_name ∈ column_names t ->
  Forall (fun r => default VNone (r !! column_name) <> VNone) (tb_rows t) ->
  alter_column (<["faraday_role" := t]> db) "faraday_role" column_name false
  = Ok (<["faraday_role" :=
           mk_table (map (set_nullable false column_name) (tb_columns t))
             (tb_rows t)]> db).
Proof.
  intros Hcol Hrows. unfold alter_column, has_column.
  rewrite lookup_insert_eq, bool_decide_eq_true_2 by done.
  cbn [negb andb].
  assert (Hnone : existsb
            (fun r => bool_decide (default VNone (r !! column_name) = VNone))
            (tb_rows t) = false).
  { apply not_true_is_false. rewrite existsb_exists.
    intros (r & Hin & Hnull). apply bool_decide_eq_true in Hnull.
    rewrite List.Forall_forall in Hrows. by apply (Hrows r). }
  by rewrite Hnone, insert_insert_eq.
Qed.

Lemma drop_column_role (t : table) (column_name : string) :
  column_name ∈ column_names t ->
  drop_column (<["faraday_role" := t]> db) "faraday_role" column_name
  = Ok (<["faraday_role" :=
           mk_table
             (List.filter
                (fun c => negb (String.eqb (cd_name c) column_name))
                (tb_columns t))
             (map (delete column_name) (tb_rows t))]> db).
Proof.
  intros Hcol. unfold drop_column, has_column.
  rewrite lookup_insert_eq, bool_decide_eq_true_2 by done.
  cbn [negb]. by rewrite insert_insert_eq.
Qed.

(** Columns other than [name] are untouched by altering or dropping
    [name]. *)
Lemma set_nullable_other (nullable : bool) (name : string)
    (cols : list column_def) :
  name ∉ map cd_name cols ->
  map (set_nullable nullable name) cols = cols.
Proof.
  induction cols as [|c cols IH]; intros Hfresh; [reflexivity|].
  cbn [map] in *. apply not_elem_of_cons in Hfresh as [Hc Hcols].
  rewrite IH by done. unfold set_nullable.
  destruct (String.eqb_spec (cd_name c) name); [congruence | reflexivity].
Qed.

Lemma filter_other_columns (name : string) (cols : list column_def) :
  name ∉ map cd_name cols ->
  List.filter (fun c => negb (String.eqb (cd_name c) name)) cols = cols.
Proof.
  induction cols as [|c cols IH]; intros Hfresh; [reflexivity|].
  cbn [map List.filter] in *. apply not_elem_of_cons in Hfresh as [Hc Hcols].
  rewrite IH by done.
  destruct (String.eqb_spec (cd_name c) name); [congruence | reflexivity].
Qed.

End RoleWeight.

(** The weight of each of the four roles. *)
Lemma weighted_known_role (r : gmap string value) (name : string) :
  r !! "name" = Some (VStr name) ->
  name ∈ ["admin"; "asset_owner"; "pentester"; "client"] ->
  weighted r !! "weight" = Some (role_weight name) /\
  role_weight name <> VNone /\
  (name = "admin" -> role_weight name = VInt 40) /\
  (name = "asset_owner" -> role_weight name = VInt 30) /\
  (name = "pentester" -> role_weight name = VInt 20) /\
  (name = "client" -> role_weight name = VInt 10).
Proof.
  intros Hr Hname. unfold weighted. rewrite Hr, lookup_insert_eq.
  split; [reflexivity|].
  rewrite !elem_of_cons, elem_of_nil in Hname.
  destruct Hname as [-> | [-> | [-> | [-> | []]]]];
    repeat split; first [ discriminate | reflexivity ].
Qed.

(** C8: on a [faraday_role] table that has a [name] column, no [weight]
    column yet, and only the four known roles, [upgrade] succeeds: it
    appends an integer [weight] column that ends up [NOT NULL] and gives
    weight 40 to [admin], 30 to [asset_owner], 20 to [pentester] and 10 to
    [client]; [downgrade] then drops the column, so that the table has the
    columns it had before the upgrade. *)
Theorem upgrade_adds_weight_downgrade_restores :
  forall (db : database) (t : table),
    db !! "faraday_role" = Some t ->
    "weight" ∉ column_names t ->
    "name" ∈ column_names t ->
    Forall (fun r => exists name,
              r !! "name" = Some (VStr name) /\
              name ∈ ["admin"; "asset_owner"; "pentester"; "client"])
      (tb_rows t) ->
    exists db' db'',
      upgrade db = Ok db' /\
      db' = <["faraday_role" :=
               mk_table
                 (tb_columns t ++ [mk_column_def "weight" Integer false])
                 (map weighted (tb_rows t))]> db /\
      (forall r name,
         r ∈ tb_rows t -> r !! "name" = Some (VStr name) ->
         (name = "admin" -> weighted r !! "weight" = Some (VInt 40)) /\
         (name = "asset_owner" -> weighted r !! "weight" = Some (VInt 30)) /\
         (name = "pentester" -> weighted r !! "weight" = Some (VInt 20)) /\
         (name = "client" -> weighted r !! "weight" = Some (VInt 10))) /\
      downgrade db' = Ok db'' /\
      db'' = <["faraday_role" :=
                mk_table (tb_columns t)
                  (map (delete "weight") (tb_rows t))]> db /\
      (forall t'', db'' !! "faraday_role" = Some t'' ->
                   tb_columns t'' = tb_columns t).
Proof.
  intros db t Ht Hfresh Hname Hroles.
  set (wcol := mk_column_def "weight" Integer true).
  assert (Hw : "weight" ∈ map cd_name (tb_columns t ++ [wcol])).
  { rewrite map_app. apply elem_of_app. right. by left. }
  assert (Hn : "name" ∈ map cd_name (tb_columns t ++ [wcol])).
  { rewrite map_app. apply elem_of_app. by left. }
  assert (Hup : upgrade db
    = Ok (<["faraday_role" :=
             mk_table (tb_columns t ++ [mk_column_def "weight" Integer false])
               (map weighted (tb_rows t))]> db)).
  { unfold upgrade. fold wcol.
    rewrite (add_column_role db t wcol) by done. cbn [mbind result_bind].
    do 4 (rewrite execute_role by done; cbn [mbind result_bind tb_columns tb_rows]).
    rewrite alter_column_role; cbn [tb_columns tb_rows]; [| done |].
    - f_equal. f_equal. f_equal.
      + rewrite map_app, set_nullable_other by done. reflexivity.
      + rewrite !map_map. apply map_ext. intros r. apply weight_updates_row.
    - rewrite !map_map. apply List.Forall_forall. intros r' Hin.
      apply in_map_iff in Hin as (r & <- & Hin).
      rewrite weight_updates_row.
      rewrite List.Forall_forall in Hroles.
      destruct (Hroles r Hin) as (name & Hr & Hknown).
      destruct (weighted_known_role r name Hr Hknown) as (-> & Hne & _).
      exact Hne. }
  eexists _, _. split; [exact Hup|]. split; [reflexivity|]. split.
  { intros r name Hin Hr.
    unfold weighted. rewrite Hr, lookup_insert_eq.
    repeat split; intros ->; reflexivity. }
  assert (Hdown : downgrade
      (<["faraday_role" :=
          mk_table (tb_columns t ++ [mk_column_def "weight" Integer false])
            (map weighted (tb_rows t))]> db)
    = Ok (<["faraday_role" :=
             mk_table (tb_columns t) (map (delete "weight") (tb_rows t))]> db)).
  { unfold downgrade. rewrite drop_column_role.
    - cbn [tb_columns tb_rows]. f_equal. f_equal. f_equal.
      + rewrite List.filter_app, filter_other_columns by done.
        cbn. by rewrite app_nil_r.
      + rewrite map_map. apply map_ext. intros r. unfold weighted.
        destruct (r !! "name") as [[| | | |]|]; apply delete_insert_eq.
    - unfold column_names. cbn [tb_columns].
      rewrite map_app. apply elem_of_app. right. by left. }
  split; [exact Hdown|]. split; [reflexivity|].
  intros t'' Ht''. rewrite lookup_insert_eq in Ht''. by injection Ht'' as <-.
Qed.

Lemma upgrade_adds_weight_downgrade_restores_witness :
  exists db' db'',
    upgrade Examples.roles_db = Ok db' /\
    downgrade db' = Ok db'' /\
    forall t'', db'' !! "faraday_role" = Some t'' ->
                tb_columns t'' = tb_columns Examples.role_table.
Proof.
  destruct (upgrade_adds_weight_downgrade_restores Examples.roles_db
              Examples.role_table) as (db' & db'' & Hup & _ & _ & Hdown & _ & Hcols).
  - reflexivity.
  - apply (bool_decide_unpack _). vm_compute. exact I.
  - apply (bool_decide_unpack _). vm_compute. exact I.
  - unfold Examples.role_table. cbn [tb_rows].
    constructor; [|constructor; [|constructor]].
    + exists "admin". split; [reflexivity|].
      apply (bool_decide_unpack _). vm_compute. exact I.
    + exists "client". split; [reflexivity|].
      apply (bool_decide_unpack _). vm_compute. exact I.
  - exists db', db''. auto.
Defined.

(** A role outside the four keeps a [NULL] weight, and the upgrade stops at
    the [NOT NULL] step. *)
Example upgrade_unknown_role :
  upgrade
    {["faraday_role" :=
        mk_table [mk_column_def "name" (OtherSql "String") false]
          [{["name" := VStr "auditor"]}]]}
  = Raise IntegrityError.
Proof. vm_compute. reflexivity. Qed.

(** ** Properties of conflict detection *)

Section ConflictConditions.

Local Open Scope list_scope.

Variable s : session.
Variable klass : model_class.
Variable obj : object.
Variable data : record.
Variable workspace : option value.
Variable ids : option (list value).

Abbreviation holds r := (forallb (fun c => eval_cond c r)).
Abbreviation agrees_on r := (forallb (column_agrees s klass obj data workspace ids r)).
Abbreviation supplied := (existsb (supplies klass obj data)).

Lemma has_conditions_snoc (filter_data : list cond) (c : cond) :
  has_conditions (filter_data ++ [c]) = true.
Proof. by destruct filter_data. Qed.

(** A record passes the conjunction exactly when it passes every
    condition. *)
Lemma reduce_and_eval (cs : list cond) :
  forall c r, eval_cond (reduce_and c cs) r = holds r (c :: cs).
Proof.
  unfold reduce_and. induction cs as [|c' cs IH]; intros c r.
  - cbn. by rewrite andb_true_r.
  - cbn [fold_left]. rewrite IH. cbn. by rewrite andb_assoc.
Qed.

Lemma holds_snoc (r : record) (filter_data : list cond) (col : string)
    (v : value) :
  holds r (filter_data ++ [CEq col v])
  = holds r filter_data && sql_eq (cell r col) v.
Proof. rewrite forallb_app. cbn. by rewrite andb_true_r. Qed.

(** One plain unique column adds the comparison with the supplied value. *)
Lemma unique_field_step_ok (filter_data : list cond) (col : string) :
  endswith col "_id" = false ->
  readable klass obj data workspace ids col = true ->
  exists filter_data',
    unique_field_step klass obj data filter_data col = Ok filter_data' /\
    (forall r,
       holds r filter_data'
       = holds r filter_data && column_agrees s klass obj data workspace ids r col) /\
    has_conditions filter_data'
    = has_conditions filter_data || supplies klass obj data col.
Proof.
  intros Hplain Hread.
  unfold readable, column_agrees, supplies, supplied_value, unique_field_step in *.
  rewrite Hplain in *.
  apply andb_prop in Hread as [Hcol Hval].
  apply bool_decide_eq_true in Hcol as [column_default Hcol].
  rewrite Hcol.
  assert (Hstep : forall v,
    exists filter_data',
      match v with
      | VNone => Ok filter_data
      | _ => Ok (filter_data ++ [CEq col v])
      end = Ok filter_data' /\
      (forall r, holds r filter_data'
                 = holds r filter_data && agree_on r col v) /\
      has_conditions filter_data'
      = has_conditions filter_data || negb (bool_decide (v = VNone))).
  { intros v.
    destruct v; eexists; (split; [reflexivity|]); split;
      try (intros r; apply holds_snoc);
      try (rewrite has_conditions_snoc; by rewrite orb_true_r).
    - intros r. cbn. by rewrite andb_true_r.
    - cbn. by rewrite orb_false_r. }
  destruct (data !! col) as [v|] eqn:Hdata; [apply Hstep|].
  apply orb_prop in Hval as [Hval|Hval];
    [by apply bool_decide_eq_true in Hval as [? ?]|].
  apply bool_decide_eq_true in Hval as [v Hattr].
  unfold cell. rewrite Hattr. cbn [from_option id mbind result_bind].
  destruct column_default as [arg|]; [|apply Hstep].
  destruct (truthy v); apply Hstep.
Qed.

(** One relation column other than [workspace_id] adds the comparison with
    the supplied id. *)
Lemma relations_field_step_ok (filter_data : list cond) (col : string) :
  endswith col "_id" = true ->
  col <> "workspace_id" ->
  readable klass obj data workspace ids col = true ->
  exists filter_data',
    relations_field_step klass data filter_data col = Ok filter_data' /\
    (forall r,
       holds r filter_data'
       = holds r filter_data && column_agrees s klass obj data workspace ids r col) /\
    has_conditions filter_data'
    = has_conditions filter_data || supplies klass obj data col.
Proof.
  intros Hrel Hws Hread.
  unfold readable, column_agrees, supplies, supplied_relation,
    relations_field_step, table_column, is_column in *.
  rewrite Hrel in *.
  apply String.eqb_neq in Hws. rewrite Hws in *.
  assert (Hskip : exists filter_data',
      Ok filter_data = Ok filter_data' /\
      (forall r, holds r filter_data'
                 = holds r filter_data && agree_on r col VNone) /\
      has_conditions filter_data'
      = has_conditions filter_data || negb (bool_decide (VNone = VNone))).
  { eexists. split; [reflexivity|]. split.
    - intros r. cbn. by rewrite andb_true_r.
    - cbn. by rewrite orb_false_r. }
  assert (Hadd : forall v, v <> VNone ->
    exists filter_data',
      Ok (filter_data ++ [CEq col v]) = Ok filter_data' /\
      (forall r, holds r filter_data'
                 = holds r filter_data && agree_on r col v) /\
      has_conditions filter_data'
      = has_conditions filter_data || negb (bool_decide (v = VNone))).
  { intros v Hv. eexists. split; [reflexivity|]. split.
    - intros r. rewrite holds_snoc. by destruct v.
    - rewrite has_conditions_snoc, bool_decide_eq_false_2 by done.
      by rewrite orb_true_r. }
  destruct (data !! col) as [v|] eqn:Hdata.
  - rewrite bool_decide_eq_true_2 by (by eexists).
    cbn [negb andb from_option id].
    destruct (truthy v) eqn:Htruthy; [|apply Hskip].
    cbn [negb orb] in Hread.
    apply bool_decide_eq_true in Hread as [column_default Hcol].
    rewrite Hcol. cbn [mbind result_bind]. apply Hadd. by destruct v.
  - rewrite bool_decide_eq_false_2 by (intros [? ?]; discriminate).
    cbn [negb andb].
    destruct (data !! strip col "_id") as [[| | | |[oid|]]|] eqn:Hobj;
      try discriminate Hread.
    + rewrite bool_decide_eq_true_2 by (by eexists).
      apply bool_decide_eq_true in Hread as [column_default Hcol].
      rewrite Hcol. cbn [mbind result_bind]. by apply Hadd.
    + rewrite bool_decide_eq_false_2 by (intros [? ?]; discriminate).
      cbn [from_option id truthy]. apply Hskip.
Qed.

(** A loop whose every step adds the comparison of its column adds the
    comparisons of all its columns. *)
Lemma for_each_conditions
    (step : list cond -> string -> result (list cond)) (cols : list string) :
  (forall col, col ∈ cols -> forall filter_data,
     exists filter_data',
       step filter_data col = Ok filter_data' /\
       (forall r,
          holds r filter_data'
          = holds r filter_data
            && column_agrees s klass obj data workspace ids r col) /\
       has_conditions filter_data'
       = has_conditions filter_data || supplies klass obj data col) ->
  forall filter_data,
    exists filter_data',
      for_each step cols filter_data = Ok filter_data' /\
      (forall r,
         holds r filter_data' = holds r filter_data && agrees_on r cols) /\
      has_conditions filter_data'
      = has_conditions filter_data || supplied cols.
Proof.
  induction cols as [|col cols IH]; intros Hstep filter_data.
  - exists filter_data. split; [reflexivity|]. split.
    + intros r. cbn. by rewrite andb_true_r.
    + cbn. by rewrite orb_false_r.
  - destruct (Hstep col (list_elem_of_here _ _) filter_data)
      as (fd1 & Hfd1 & Hholds1 & Hhas1).
    destruct (IH (fun c Hc => Hstep c (list_elem_of_further _ _ _ Hc)) fd1)
      as (fd2 & Hfd2 & Hholds2 & Hhas2).
    exists fd2. cbn [for_each]. rewrite Hfd1. cbn [mbind result_bind].
    split; [exact Hfd2|]. split.
    + intros r. rewrite Hholds2, Hholds1. cbn. by rewrite andb_assoc.
    + rewrite Hhas2, Hhas1. cbn. by rewrite orb_assoc.
Qed.

End ConflictConditions.

(** *** Splitting a column set the way [get_conflict_object] does *)

Section Splitting.

Local Open Scope list_scope.

Variable f : string -> bool.
Variable p : string -> bool.

Lemma forallb_partition (l : list string) :
  forallb f l
  = forallb f (List.filter (fun x => negb (p x)) l)
    && forallb f (List.filter p l).
Proof.
  induction l as [|x l IH]; [reflexivity|].
  cbn. rewrite IH.
  destruct (p x); cbn; destruct (f x); cbn;
    rewrite ?andb_false_r; reflexivity.
Qed.

Lemma existsb_partition (l : list string) :
  existsb f l
  = existsb f (List.filter (fun x => negb (p x)) l)
    || existsb f (List.filter p l).
Proof.
  induction l as [|x l IH]; [reflexivity|].
  cbn. rewrite IH.
  destruct (p x); cbn; destruct (f x); cbn;
    rewrite ?orb_true_r; reflexivity.
Qed.

Lemma forallb_remove_first (x : string) (l : list string) :
  x ∈ l -> forallb f l = f x && forallb f (remove_first x l).
Proof.
  induction l as [|y l IH]; intros Hin; [by apply elem_of_nil in Hin|].
  cbn. destruct (String.eqb_spec y x) as [->|Hne]; [reflexivity|].
  apply elem_of_cons in Hin as [->|Hin]; [congruence|].
  cbn. rewrite IH by done. by destruct (f x), (f y).
Qed.

Lemma existsb_remove_first (x : string) (l : list string) :
  x ∈ l -> existsb f l = f x || existsb f (remove_first x l).
Proof.
  induction l as [|y l IH]; intros Hin; [by apply elem_of_nil in Hin|].
  cbn. destruct (String.eqb_spec y x) as [->|Hne]; [reflexivity|].
  apply elem_of_cons in Hin as [->|Hin]; [congruence|].
  cbn. rewrite IH by done. by destruct (f x), (f y).
Qed.

Lemma remove_first_elem (x y : string) (l : list string) :
  NoDup l -> y ∈ remove_first x l -> y ∈ l /\ y <> x.
Proof.
  induction l as [|z l IH]; intros Hnd Hin; [by apply elem_of_nil in Hin|].
  apply NoDup_cons in Hnd as [Hz Hnd]. cbn in Hin.
  destruct (String.eqb_spec z x) as [->|Hne].
  - split; [by right|]. intros ->. contradiction.
  - apply elem_of_cons in Hin as [->|Hin]; [split; [by left | done]|].
    destruct (IH Hnd Hin). split; [by right | done].
Qed.

Lemma filter_elem (y : string) (l : list string) :
  y ∈ List.filter p l <-> y ∈ l /\ p y = true.
Proof. rewrite !list_elem_of_In. apply filter_In. Qed.

Lemma filter_NoDup (l : list string) : NoDup l -> NoDup (List.filter p l).
Proof.
  intros Hnd. apply NoDup_ListNoDup. apply List.NoDup_filter.
  by apply NoDup_ListNoDup.
Qed.

End Splitting.

Section ConflictObjectSpec.

Local Open Scope list_scope.

Variable VulnerabilityGeneric : model_class.
Variable s : session.
Variable obj : object.
Variable data : record.
Variable workspace : option value.
Variable ids : option (list value).

(** [first] depends on the test only through its values. *)
Lemma first_ext {A : Type} (f g : A -> bool) (rows : list A) :
  (forall r, f r = g r) -> first f rows = first g rows.
Proof.
  intros Hfg. unfold first.
  induction rows as [|r rows IH]; [reflexivity|].
  cbn. by rewrite Hfg, IH.
Qed.

(** The query [get_conflict_object] ends with. *)
Lemma conflict_query (klass : model_class) (cols : list string)
    (filter_data : list cond) :
  (forall r,
     forallb (fun c => eval_cond c r) filter_data
     = agrees s klass obj data workspace ids cols r) ->
  has_conditions filter_data = existsb (supplies klass obj data) cols ->
  match filter_data with
  | c :: cs => Ok (first (eval_cond (reduce_and c cs)) (query_rows s klass))
  | [] => Ok None
  end
  = Ok (if existsb (supplies klass obj data) cols
        then first (agrees s klass obj data workspace ids cols)
               (query_rows s klass)
        else None).
Proof.
  intros Hholds Hhas. rewrite <- Hhas.
  destruct filter_data as [|c cs]; [reflexivity|].
  cbn [has_conditions]. f_equal. apply first_ext.
  intros r. rewrite reduce_and_eval. apply Hholds.
Qed.

(** The workspace condition is what [in_workspace] states. *)
Lemma workspace_condition (klass : model_class) (r : record) :
  column_agrees s klass obj data workspace ids r "workspace_id"
  = in_workspace s klass workspace ids r.
Proof. reflexivity. Qed.

Lemma conflict_for_first_agreeing (object_type : string) (cols : list string) :
  get_object_type_for obj = Ok object_type ->
  NoDup cols ->
  let klass :=
    if String.eqb object_type "vulnerability"
    then VulnerabilityGeneric else o_class obj in
  forallb (readable klass obj data workspace ids) cols = true ->
  conflict_for VulnerabilityGeneric s obj data workspace ids cols
  = Ok (if existsb (supplies klass obj data) cols
        then first (agrees s klass obj data workspace ids cols)
               (query_rows s klass)
        else None).
Proof.
  intros Hot Hnd klass Hread.
  rewrite forallb_forall in Hread.
  unfold conflict_for. rewrite Hot. cbn [mbind result_bind]. fold klass.
  set (plain := List.filter (fun f => negb (endswith f "_id")) cols).
  set (rels := List.filter (fun f => endswith f "_id") cols).
  destruct (for_each_conditions s klass obj data workspace ids
              (unique_field_step klass obj data) plain) with (filter_data := @nil cond)
    as (fd1 & Hfd1 & Hholds1 & Hhas1).
  { intros col Hcol fd. apply filter_elem in Hcol as [Hcol Hplain].
    apply unique_field_step_ok.
    - by apply negb_true_iff in Hplain.
    - apply Hread. by apply list_elem_of_In. }
  rewrite Hfd1. cbn [mbind result_bind].
  assert (Hrel_step : forall col, col ∈ rels -> col <> "workspace_id" ->
    forall fd, exists fd',
      relations_field_step klass data fd col = Ok fd' /\
      (forall r, forallb (fun c => eval_cond c r) fd'
                 = forallb (fun c => eval_cond c r) fd
                   && column_agrees s klass obj data workspace ids r col) /\
      has_conditions fd' = has_conditions fd || supplies klass obj data col).
  { intros col Hcol Hne fd. apply filter_elem in Hcol as [Hcol Hrel].
    apply relations_field_step_ok; [done | done |].
    apply Hread. by apply list_elem_of_In. }
  assert (Hsplit : forall r,
    agrees s klass obj data workspace ids cols r
    = forallb (column_agrees s klass obj data workspace ids r) plain
      && forallb (column_agrees s klass obj data workspace ids r) rels)
    by (intros r; apply (forallb_partition _ (fun f => endswith f "_id"))).
  assert (Hsplit' :
    existsb (supplies klass obj data) cols
    = existsb (supplies klass obj data) plain
      || existsb (supplies klass obj data) rels)
    by apply (existsb_partition _ (fun f => endswith f "_id")).
  unfold str_in. case_bool_decide as Hws.
  - assert (Hnd' : NoDup rels) by by apply filter_NoDup.
    set (rels' := remove_first "workspace_id" rels).
    assert (Hloop : forall fd2,
      (forall r, forallb (fun c => eval_cond c r) fd2
                 = forallb (fun c => eval_cond c r) fd1
                   && in_workspace s klass workspace ids r) ->
      has_conditions fd2 = true ->
      (fd3 ← for_each (relations_field_step klass data) rels' fd2;
       match fd3 with
       | c :: cs => Ok (first (eval_cond (reduce_and c cs)) (query_rows s klass))
       | [] => Ok None
       end)
      = Ok (if existsb (supplies klass obj data) cols
            then first (agrees s klass obj data workspace ids cols)
                   (query_rows s klass)
            else None)).
    { intros fd2 Hholds2 Hhas2.
      destruct (for_each_conditions s klass obj data workspace ids
                  (relations_field_step klass data) rels') with (filter_data := fd2)
        as (fd3 & Hfd3 & Hholds3 & Hhas3).
      { intros col Hcol. apply remove_first_elem in Hcol as [Hcol Hne]; [|done].
        by apply Hrel_step. }
      rewrite Hfd3. cbn [mbind result_bind]. apply conflict_query.
      - intros r. rewrite Hholds3, Hholds2, Hholds1, Hsplit.
        rewrite (forallb_remove_first _ "workspace_id" rels) by done.
        rewrite workspace_condition. cbn [forallb andb].
        by rewrite andb_assoc.
      - rewrite Hhas3, Hhas2, Hsplit'.
        rewrite (existsb_remove_first _ "workspace_id" rels) by done.
        cbn. by rewrite orb_true_r. }
    assert (Hwsread :
      readable klass obj data workspace ids "workspace_id" = true).
    { apply Hread. apply list_elem_of_In.
      by apply filter_elem in Hws as [Hws _]. }
    unfold readable, is_column, table_column, class_attribute in *.
    change (endswith "workspace_id" "_id") with true in Hwsread.
    change (("workspace_id" =? "workspace_id")%string) with true in Hwsread.
    cbn iota in Hwsread.
    destruct workspace as [workspace_id|].
    + apply bool_decide_eq_true in Hwsread as [column_default Hcol].
      rewrite Hcol. cbn [mbind result_bind]. apply Hloop;
        [|apply has_conditions_snoc].
      intros r. rewrite forallb_app. cbn. by rewrite andb_true_r.
    + apply andb_prop in Hwsread as [Hwsread Hcol].
      apply andb_prop in Hwsread as [Hwsread Hids].
      apply andb_prop in Hwsread as [Hattr_ws Hattr_id].
      apply bool_decide_eq_true in Hcol as [column_default Hcol].
      rewrite Hattr_ws, Hattr_id. cbn [mbind result_bind].
      destruct ids as [ids_list|];
        [|by apply bool_decide_eq_true in Hids as [? ?]].
      cbn [mbind result_bind]. rewrite Hcol. cbn [mbind result_bind].
      apply Hloop; [|apply has_conditions_snoc].
      intros r. rewrite forallb_app. cbn. by rewrite andb_true_r.
  - cbn [mbind result_bind].
    destruct (for_each_conditions s klass obj data workspace ids
                (relations_field_step klass data) rels) with (filter_data := fd1)
      as (fd3 & Hfd3 & Hholds3 & Hhas3).
    { intros col Hcol. apply Hrel_step; [done|]. by intros ->. }
    rewrite Hfd3. cbn [mbind result_bind]. apply conflict_query.
    + intros r. by rewrite Hholds3, Hholds1, Hsplit.
    + by rewrite Hhas3, Hhas1, Hsplit'.
Qed.

End ConflictObjectSpec.

(** C4, as stated, fails: the candidate host has no operating system, the
    stored host has one, and the stored host is returned all the same,
    although no stored record has the candidate's values on the unique
    columns. *)
Lemma conflict_object_counterexample :
  get_unique_fields Examples.hosts Examples.new_host
  = Ok [["ip"; "os"; "workspace_id"]] /\
  get_conflict_object Examples.vulnerability_generic Examples.hosts
    Examples.new_host Examples.new_host_data (Some (VInt 7)) None
  = Ok (Some Examples.host_1) /\
  same_unique_values Examples.new_host Examples.new_host_data
    ["ip"; "os"; "workspace_id"] Examples.host_1 = false /\
  conflict_as_stated Examples.hosts Examples.host_class Examples.new_host
    Examples.new_host_data ["ip"; "os"; "workspace_id"] = None.
Proof. repeat split; vm_compute; reflexivity. Qed.

(** C4, amended: [get_unique_fields] yields the reflected unique-constraint
    column sets of the instance's table, except for the object type
    [vulnerability] (the classes [Vulnerability], [VulnerabilityWeb] and
    [VulnerabilityCode], which have no table name of their own), for which
    it yields the one hard-coded set of ten columns. When the candidate can
    be read on the first yielded column set, [get_conflict_object] compares
    only the columns of that set for which the candidate supplies
    something: a value that is not [None] for a plain column, the given
    workspace for [workspace_id], a related object or a truthy id for
    another relation column; it returns the first record of the class that
    agrees on all of them, and [None] when nothing is supplied. *)
Theorem conflict_object_first_agreeing_record :
  forall (VulnerabilityGeneric : model_class) (s : session) (obj : object)
         (data : record) (workspace : option value)
         (ids : option (list value)),
    (get_object_type_for obj = Ok "vulnerability" ->
     get_unique_fields s obj = Ok [vulnerability_unique_fields]) /\
    (cls_tablename (o_class obj) = None ->
     cls_name (o_class obj)
       ∈ ["Vulnerability"; "VulnerabilityWeb"; "VulnerabilityCode"] ->
     get_object_type_for obj = Ok "vulnerability") /\
    vulnerability_unique_fields
    = ["name"; "description"; "type"; "host_id"; "service_id"; "method";
       "parameter_name"; "path"; "website"; "workspace_id"] /\
    length vulnerability_unique_fields = 10%nat /\
    (forall table_name,
       get_object_type_for obj = Ok table_name ->
       table_name <> "vulnerability" ->
       get_unique_fields s obj = Ok (get_unique_constraints s table_name)) /\
    (forall object_type cols rest,
       get_object_type_for obj = Ok object_type ->
       get_unique_fields s obj = Ok (cols :: rest) ->
       NoDup cols ->
       let klass :=
         if String.eqb object_type "vulnerability"
         then VulnerabilityGeneric else o_class obj in
       forallb (readable klass obj data workspace ids) cols = true ->
       get_conflict_object VulnerabilityGeneric s obj data workspace ids
       = Ok (if existsb (supplies klass obj data) cols
             then first (agrees s klass obj data workspace ids cols)
                    (query_rows s klass)
             else None)).
Proof.
  intros VG s obj data workspace ids.
  split; [|split; [|split; [|split; [|split]]]].
  - intros Hot. unfold get_unique_fields. by rewrite Hot.
  - intros Htable Hname. unfold get_object_type_for, str_in.
    by rewrite Htable, bool_decide_eq_true_2.
  - reflexivity.
  - reflexivity.
  - intros table_name Hot Hne. unfold get_unique_fields. rewrite Hot.
    cbn [mbind result_bind]. apply String.eqb_neq in Hne. by rewrite Hne.
  - intros object_type cols rest Hot Hgen Hnd klass Hread.
    unfold get_conflict_object. rewrite Hgen. cbn [mbind result_bind].
    by apply conflict_for_first_agreeing.
Qed.

Lemma conflict_object_first_agreeing_record_witness :
  get_conflict_object Examples.vulnerability_generic Examples.hosts
    Examples.new_host Examples.new_host_data (Some (VInt 7)) None
  = Ok (if existsb
             (supplies Examples.host_class Examples.new_host
                Examples.new_host_data)
             ["ip"; "os"; "workspace_id"]
        then first
               (agrees Examples.hosts Examples.host_class Examples.new_host
                  Examples.new_host_data (Some (VInt 7)) None
                  ["ip"; "os"; "workspace_id"])
               (query_rows Examples.hosts Examples.host_class)
        else None).
Proof.
  apply (proj2 (proj2 (proj2 (proj2 (proj2
           (conflict_object_first_agreeing_record
              Examples.vulnerability_generic Examples.hosts Examples.new_host
              Examples.new_host_data (Some (VInt 7)) None)))))
           "host" ["ip"; "os"; "workspace_id"] []).
  - reflexivity.
  - reflexivity.
  - apply (bool_decide_unpack _). vm_compute. exact I.
  - vm_compute. reflexivity.
Defined.

(** Two observations on [get_conflict_object] that the statement above
    leaves aside. Only the first yielded column set is consulted: here the
    second constraint, on [os], has a stored match that is not looked for. *)
Example conflict_object_first_set_only :
  get_conflict_object Examples.vulnerability_generic
    (mk_session (s_rows Examples.hosts) []
       {["host" := [["ip"]; ["os"]]]})
    (mk_object Examples.host_class
       {["ip" := VStr "10.0.0.9"; "os" := VStr "linux"]})
    {["ip" := VStr "10.0.0.9"; "os" := VStr "linux"]} None None
  = Ok None.
Proof. vm_compute. reflexivity. Qed.

(** [strip('_id')] removes characters, not a suffix. *)
Example strip_id_characters :
  strip "host_id" "_id" = "host" /\ strip "command_id" "_id" = "comman".
Proof. split; vm_compute; reflexivity. Qed.

(** ** Further properties of the query helpers *)

Section SearchFilterShape.

Local Open Scope list_scope.

Variable field_to_col_map : odict (list mapped).

(** Without a free-text term and without field filters the loop builds
    nothing. *)
Lemma no_search_no_filter (fts : option string) (strict_filter : list string)
    (attrs : list string) :
  str_truthy fts = false ->
  forall filters,
    fold_left (attribute_step field_to_col_map fts ∅ strict_filter) attrs filters
    = filters.
Proof.
  intros Hfts. induction attrs as [|a attrs IH]; intros [f d]; [reflexivity|].
  cbn [fold_left]. rewrite attribute_step_free by apply lookup_empty.
  rewrite Hfts. apply IH.
Qed.

(** A falsy free-text term, [None] or the empty string, is no term. *)
Lemma falsy_free_text_is_none (fts : option string)
    (field_filter : gmap string string) (strict_filter : list string)
    (attrs : list string) :
  str_truthy fts = false ->
  forall filters,
    fold_left (attribute_step field_to_col_map fts field_filter strict_filter)
      attrs filters
    = fold_left (attribute_step field_to_col_map None field_filter strict_filter)
        attrs filters.
Proof.
  intros Hfts. induction attrs as [|a attrs IH]; intros [f d]; [reflexivity|].
  cbn [fold_left].
  destruct (field_filter !! a) as [v|] eqn:Hv.
  - rewrite !(attribute_step_direct _ _ _ _ _ v) by done. apply IH.
  - rewrite !attribute_step_free by done. rewrite Hfts. apply IH.
Qed.

(** Free-text conditions do not depend on [strict_filter]. *)
Lemma free_text_step_ignores_strict (fts : option string)
    (strict strict' : list string) (attrs : list string) :
  forall filters,
    fold_left (attribute_step field_to_col_map fts ∅ strict) attrs filters
    = fold_left (attribute_step field_to_col_map fts ∅ strict') attrs filters.
Proof.
  induction attrs as [|a attrs IH]; intros [f d]; [reflexivity|].
  cbn [fold_left]. rewrite !attribute_step_free by apply lookup_empty.
  assert (Hsame : forall like_str cols acc,
    fold_left (column_step a false EmptyString strict like_str) cols acc
    = fold_left (column_step a false EmptyString strict' like_str) cols acc).
  { intros like_str cols. induction cols as [|x cols IHc]; intros acc;
      [reflexivity|].
    cbn [fold_left]. rewrite IHc. by destruct x. }
  unfold attribute_filter. rewrite Hsame.
  destruct (str_truthy fts); apply IH.
Qed.

End SearchFilterShape.

(** X1: an empty free-text term behaves like no term at all, whatever the
    field filters are; with no field filter either, the query comes back
    unchanged. *)
Theorem apply_search_filter_empty_search :
  forall (q : query) (field_to_col_map : odict (list mapped))
         (free_text_search : option string)
         (field_filter : gmap string string) (strict_filter : list string),
    str_truthy free_text_search = false ->
    apply_search_filter q field_to_col_map free_text_search field_filter
      strict_filter
    = apply_search_filter q field_to_col_map None field_filter strict_filter /\
    apply_search_filter q field_to_col_map free_text_search ∅ strict_filter
    = Ok q.
Proof.
  intros q m fts ff strict Hfts. split.
  - unfold apply_search_filter, search_filters.
    by rewrite (falsy_free_text_is_none m fts).
  - unfold apply_search_filter, search_filters.
    rewrite map_to_list_empty. cbn [map existsb].
    by rewrite no_search_no_filter.
Qed.

Lemma apply_search_filter_empty_search_witness :
  apply_search_filter Examples.q0 Examples.vuln_map (Some EmptyString) ∅
    ["name"] = Ok Examples.q0.
Proof.
  apply (apply_search_filter_empty_search Examples.q0 Examples.vuln_map
           (Some EmptyString) Examples.name_filter ["name"]).
  reflexivity.
Defined.

(** X2: [strict_filter] plays no part in free-text search: the free-text
    filter is the same for every [strict_filter], and without field filters
    so is the whole result. *)
Theorem free_text_search_ignores_strict_filter :
  forall (q : query) (field_to_col_map : odict (list mapped))
         (free_text_search : option string)
         (field_filter : gmap string string)
         (strict_filter other_strict : list string),
    (search_filters field_to_col_map free_text_search field_filter
       strict_filter).1
    = (search_filters field_to_col_map free_text_search field_filter
         other_strict).1 /\
    apply_search_filter q field_to_col_map free_text_search ∅ strict_filter
    = apply_search_filter q field_to_col_map free_text_search ∅ other_strict.
Proof.
  intros q m fts ff strict strict'. split.
  - unfold search_filters.
    rewrite (free_text_filter_skips_filtered m strict fts ff _ None None None).
    rewrite (free_text_filter_skips_filtered m strict' fts ff _ None None None).
    by rewrite (free_text_step_ignores_strict m fts strict strict').
  - unfold apply_search_filter, search_filters.
    by rewrite (free_text_step_ignores_strict m fts strict strict').
Qed.

Section DirectFilterShape.

Local Open Scope list_scope.

Variable field_to_col_map : odict (list mapped).
Variable strict_filter : list string.

Lemma direct_conditions (attribute value : string) (cols : list mapped) :
  forall acc,
    disjuncts
      (fold_left
         (column_step attribute true value strict_filter ("%" ++ value ++ "%"))
         cols acc)
    = disjuncts acc ++ flat_map (direct_terms attribute value strict_filter) cols.
Proof.
  induction cols as [|x cols IH]; intros acc.
  - cbn. by rewrite app_nil_r.
  - cbn [fold_left flat_map]. rewrite IH, app_assoc. f_equal.
    destruct x as [l|c]; [cbn; by rewrite app_nil_r|].
    cbn [column_step direct_terms andb].
    unfold prepare_boolean_filter, str_in.
    destruct (is_boolean c).
    + repeat case_bool_decide; rewrite ?disjuncts_concat_or, ?app_nil_r;
        reflexivity.
    + rewrite disjuncts_concat_or. by case_bool_decide.
Qed.

(** A column never contributes an [AND]. *)
Lemma column_step_or_only (attribute : string) (direct : bool)
    (value like_str : string) (cols : list mapped) :
  forall acc,
    or_only acc = true ->
    or_only (fold_left (column_step attribute direct value strict_filter like_str)
               cols acc) = true.
Proof.
  induction cols as [|x cols IH]; intros acc Hacc; [exact Hacc|].
  cbn [fold_left]. apply IH. destruct x as [l|c]; [exact Hacc|].
  cbn [column_step]. unfold prepare_boolean_filter.
  destruct (direct && is_boolean c).
  - destruct (str_in (lower value) ["true"; "1"]);
      [by destruct acc; cbn in *; rewrite ?Hacc|].
    destruct (str_in (lower value) ["false"; "0"]);
      [by destruct acc; cbn in *; rewrite ?Hacc | exact Hacc].
  - destruct (direct && str_in attribute strict_filter);
      by destruct acc; cbn in *; rewrite ?Hacc.
Qed.

Lemma attribute_filter_or_only (attribute : string) (direct : bool)
    (value like_str : string) :
  or_only (attribute_filter field_to_col_map attribute direct value
             strict_filter like_str) = true.
Proof. by apply column_step_or_only. Qed.

Lemma conjuncts_or_only (f : option clause) :
  or_only f = true -> conjuncts f = option_list f.
Proof. destruct f as [[]|]; cbn; congruence. Qed.

Lemma conjuncts_concat_and (a b : option clause) :
  conjuncts (concat_and_search_term a b) = conjuncts a ++ conjuncts b.
Proof. destruct a, b; cbn; rewrite ?app_nil_r; reflexivity. Qed.

Lemma or_only_concat_or (a b : option clause) :
  or_only a = true -> or_only b = true ->
  or_only (concat_or_search_term a b) = true.
Proof. destruct a, b; cbn; intros Ha Hb; rewrite ?Ha, ?Hb; reflexivity. Qed.

Variable free_text_search : option string.
Variable field_filter : gmap string string.

(** The loop keeps the free-text filter free of [AND] and the direct filter
    a conjunction of the per-attribute filters. *)
Lemma search_filters_shape (attrs : list string) :
  forall f d,
    or_only f = true ->
    let result :=
      fold_left
        (attribute_step field_to_col_map free_text_search field_filter
           strict_filter) attrs (f, d) in
    or_only result.1 = true /\
    conjuncts result.2
    = conjuncts d
      ++ omap (direct_filter field_to_col_map field_filter strict_filter)
           (List.filter (fun a => bool_decide (is_Some (field_filter !! a)))
              attrs).
Proof.
  induction attrs as [|a attrs IH]; intros f d Hf.
  - cbn. by rewrite app_nil_r.
  - cbn [fold_left List.filter].
    destruct (field_filter !! a) as [v|] eqn:Hv.
    + rewrite (attribute_step_direct _ _ _ _ _ v) by done.
      rewrite bool_decide_eq_true_2 by (by eexists).
      destruct (IH f (concat_and_search_term d
                        (attribute_filter field_to_col_map a true v
                           strict_filter ("%" ++ v ++ "%"))) Hf)
        as [Hor Hand].
      split; [exact Hor|]. cbn zeta in Hand. rewrite Hand.
      rewrite conjuncts_concat_and, <- app_assoc. f_equal.
      rewrite conjuncts_or_only by apply attribute_filter_or_only.
      assert (Hdf : direct_filter field_to_col_map field_filter strict_filter a
                    = attribute_filter field_to_col_map a true v strict_filter
                        ("%" ++ v ++ "%")%string)
        by (unfold direct_filter; by rewrite Hv).
      cbn [omap list_omap]. rewrite Hdf.
      by destruct (attribute_filter _ _ _ _ _ _).
    + rewrite attribute_step_free by done.
      rewrite bool_decide_eq_false_2 by (intros [? ?]; discriminate).
      destruct (str_truthy free_text_search); apply IH; [|done].
      apply or_only_concat_or; [done | apply attribute_filter_or_only].
Qed.

End DirectFilterShape.

(** C1, as stated, fails: [name] has a field filter, yet the free-text
    term is matched against the [name] column, which the mapping also
    lists under [title]. *)
Lemma field_filter_shared_column_counterexample :
  Examples.name_filter !! "name" = Some "xss" /\
  Column Examples.name_col ∈ items (odict_get Examples.shared_map "name") /\
  like_term "sql" Examples.name_col
    ∈ disjuncts
        (search_filters Examples.shared_map (Some "sql") Examples.name_filter
           []).1.
Proof.
  split; [reflexivity|]. split.
  - cbn. by left.
  - vm_compute. by left.
Qed.

(** C1, amended: for an attribute that has an entry in [field_filter], the
    filter built for the attribute is exactly the [OR], over its mapping
    entries in order, of the conditions on the field-filter value (a truth
    test for a Boolean column, equality for a strict attribute, a pattern
    match with a wildcard at both ends otherwise, nothing for a label); it
    joins the direct filter, which is the conjunction of these
    per-attribute filters; the free-text term, empty or not, plays no part
    in it. Precedence is per attribute: the free-text term is matched
    through the attributes without a field filter, and only through
    them. *)
Theorem field_filter_precedence_per_attribute :
  forall (field_to_col_map : odict (list mapped))
         (free_text_search other_search : option string)
         (field_filter : gmap string string) (strict_filter : list string)
         (attribute value : string) (fts_sql_filter dfs_sql_filter : option clause),
    field_filter !! attribute = Some value ->
    let built :=
      attribute_filter field_to_col_map attribute true value strict_filter
        ("%" ++ value ++ "%") in
    let filters :=
      search_filters field_to_col_map free_text_search field_filter
        strict_filter in
    disjuncts built
    = flat_map (direct_terms attribute value strict_filter)
        (items (odict_get field_to_col_map attribute)) /\
    or_only built = true /\
    attribute_step field_to_col_map free_text_search field_filter strict_filter
      (fts_sql_filter, dfs_sql_filter) attribute
    = (fts_sql_filter, concat_and_search_term dfs_sql_filter built) /\
    attribute_step field_to_col_map free_text_search field_filter strict_filter
      (fts_sql_filter, dfs_sql_filter) attribute
    = attribute_step field_to_col_map other_search field_filter strict_filter
        (fts_sql_filter, dfs_sql_filter) attribute /\
    filters.2
    = (search_filters field_to_col_map None field_filter strict_filter).2 /\
    conjuncts filters.2
    = omap (direct_filter field_to_col_map field_filter strict_filter)
        (filtered field_to_col_map field_filter) /\
    (forall term,
       free_text_search = Some term -> term <> EmptyString ->
       disjuncts filters.1
       = map (like_term term)
           (columns_of field_to_col_map
              (unfiltered field_to_col_map field_filter))).
Proof.
  intros m fts fts' ff strict attribute value f d Hv built filters.
  split; [|split; [|split; [|split; [|split; [|split]]]]].
  - unfold built, attribute_filter. by rewrite direct_conditions.
  - apply attribute_filter_or_only.
  - by apply attribute_step_direct.
  - by rewrite !(attribute_step_direct _ _ _ _ _ value).
  - apply direct_filter_ignores_free_text.
  - by destruct (search_filters_shape m strict fts ff (odict_keys m)
                   None None eq_refl) as [_ Hand].
  - intros term -> Hterm. unfold filters, search_filters.
    rewrite (free_text_filter_skips_filtered _ _ _ _ _ None None None).
    by rewrite free_text_disjuncts.
Qed.

Lemma field_filter_precedence_per_attribute_witness :
  disjuncts
    (attribute_filter Examples.vuln_map "name" true "xss" [] "%xss%")
  = [like_term "xss" Examples.name_col].
Proof.
  apply (proj1 (field_filter_precedence_per_attribute Examples.vuln_map
                  (Some "sql") None Examples.name_filter [] "name" "xss"
                  None None eq_refl)).
Defined.

(** X3: the filter a field filter builds for an attribute joins with [OR],
    in mapping order, what the value asks of each mapping entry: nothing of
    a label, a truth test of a Boolean column (nothing when the value is no
    truth value), equality of another column when the attribute is listed
    in [strict_filter] and a pattern match with a wildcard at both ends
    otherwise; it contains no [AND]. *)
Theorem field_filter_conditions_per_column :
  forall (field_to_col_map : odict (list mapped))
         (field_filter : gmap string string) (strict_filter : list string)
         (attribute value : string),
    field_filter !! attribute = Some value ->
    disjuncts (direct_filter field_to_col_map field_filter strict_filter attribute)
    = flat_map (direct_terms attribute value strict_filter)
        (items (odict_get field_to_col_map attribute)) /\
    or_only (direct_filter field_to_col_map field_filter strict_filter attribute)
    = true.
Proof.
  intros m ff strict attribute value Hv. unfold direct_filter. rewrite Hv.
  cbn [from_option id]. split.
  - unfold attribute_filter. by rewrite direct_conditions.
  - apply attribute_filter_or_only.
Qed.

Lemma field_filter_conditions_per_column_witness :
  disjuncts (direct_filter Examples.vuln_map Examples.name_filter ["name"] "name")
  = [OpEq Examples.name_col "xss"].
Proof.
  apply (proj1 (field_filter_conditions_per_column Examples.vuln_map
                  Examples.name_filter ["name"] "name" "xss" eq_refl)).
Defined.

(** X4: when every key of [field_filter] is mapped, [apply_search_filter]
    builds at most one filter and hands it to the [filter] call of the
    query. On a query without [LIMIT] and [OFFSET] it returns the query
    with that one filter appended and its ordering untouched; on a query
    that has a [LIMIT] or an [OFFSET] it raises [InvalidRequestError] as
    soon as there is a filter to add. The filter is the conjunction of the
    free-text filter, if any, taken as a single condition free of [AND],
    and of the filters of the attributes that have a field filter, in
    mapping order; attributes whose filter is empty are left out. *)
Theorem apply_search_filter_shape :
  forall (q : query) (field_to_col_map : odict (list mapped))
         (free_text_search : option string)
         (field_filter : gmap string string) (strict_filter : list string),
    (forall k, is_Some (field_filter !! k) ->
               is_Some (odict_get field_to_col_map k)) ->
    let filters :=
      search_filters field_to_col_map free_text_search field_filter
        strict_filter in
    let sql_filter := concat_and_search_term filters.1 filters.2 in
    apply_search_filter q field_to_col_map free_text_search field_filter
      strict_filter
    = match sql_filter with
      | Some f => filter q f
      | None => Ok q
      end /\
    (has_limit_offset q = false ->
     apply_search_filter q field_to_col_map free_text_search field_filter
       strict_filter
     = Ok (mk_query (q_filter q ++ option_list sql_filter)%list (q_order_by q)
             (q_limit q) (q_offset q))) /\
    (has_limit_offset q = true -> sql_filter <> None ->
     apply_search_filter q field_to_col_map free_text_search field_filter
       strict_filter = Raise InvalidRequestError) /\
    or_only filters.1 = true /\
    conjuncts sql_filter
    = (option_list filters.1
       ++ omap (direct_filter field_to_col_map field_filter strict_filter)
            (filtered field_to_col_map field_filter))%list.
Proof.
  intros q m fts ff strict Hall filters sql_filter.
  destruct (search_filters_shape m strict fts ff (odict_keys m) None None eq_refl)
    as [Hor Hand].
  fold (search_filters m fts ff strict) in Hor, Hand. fold filters in Hor, Hand.
  assert (Hcall :
    apply_search_filter q m fts ff strict
    = match sql_filter with
      | Some f => filter q f
      | None => Ok q
      end).
  { unfold apply_search_filter.
    destruct (existsb _ _) eqn:Hguard.
    { apply unmapped_key_guard in Hguard as (k & Hk & Hnone).
      apply Hall in Hk as [cols Hcols]. congruence. }
    fold filters. subst sql_filter. by destruct filters as [f d]. }
  split; [exact Hcall|]. split; [|split; [|split; [exact Hor|]]].
  - intros Hq. rewrite Hcall. destruct sql_filter as [f|]; cbn [option_list].
    + by apply filter_unpaged.
    + rewrite app_nil_r. by destruct q.
  - intros Hq Hsome. rewrite Hcall. destruct sql_filter as [f|]; [|done].
    unfold filter. by rewrite Hq.
  - subst sql_filter. rewrite conjuncts_concat_and, Hand.
    by rewrite conjuncts_or_only.
Qed.

Lemma apply_search_filter_shape_witness :
  conjuncts
    (concat_and_search_term
       (search_filters Examples.vuln_map (Some "sql") Examples.name_filter []).1
       (search_filters Examples.vuln_map (Some "sql") Examples.name_filter []).2)
  = (option_list
       (search_filters Examples.vuln_map (Some "sql") Examples.name_filter []).1
     ++ omap (direct_filter Examples.vuln_map Examples.name_filter [])
          (filtered Examples.vuln_map Examples.name_filter))%list.
Proof.
  apply (apply_search_filter_shape Examples.q0 Examples.vuln_map (Some "sql")
           Examples.name_filter []).
  intros k [v Hv]. unfold Examples.name_filter in Hv.
  apply lookup_singleton_Some in Hv as [<- _]. by eexists.
Defined.

(** Labels are skipped whatever is searched. *)
Lemma labels_contribute_nothing (attribute : string) (direct : bool)
    (value like_str : string) (strict_filter : list string)
    (cols : list mapped) :
  forallb is_label cols = true ->
  forall acc,
    fold_left (column_step attribute direct value strict_filter like_str)
      cols acc = acc.
Proof.
  induction cols as [|x cols IH]; intros Hlabels acc; [reflexivity|].
  cbn in Hlabels. apply andb_prop in Hlabels as [Hx Hcols].
  destruct x; [|discriminate]. cbn [fold_left column_step]. by apply IH.
Qed.

(** X5: a field filter on an attribute that is mapped to labels only is
    accepted and has no effect: with no free-text term the query comes back
    unchanged. *)
Theorem label_only_field_filter_ignored :
  forall (q : query) (field_to_col_map : odict (list mapped))
         (free_text_search : option string)
         (field_filter : gmap string string) (strict_filter : list string),
    (forall k v, field_filter !! k = Some v ->
       exists cols, odict_get field_to_col_map k = Some cols /\
                    forallb is_label cols = true) ->
    str_truthy free_text_search = false ->
    apply_search_filter q field_to_col_map free_text_search field_filter
      strict_filter = Ok q.
Proof.
  intros q m fts ff strict Hlabels Hfts. unfold apply_search_filter.
  destruct (existsb _ _) eqn:Hguard.
  { apply unmapped_key_guard in Hguard as (k & [v Hk] & Hnone).
    destruct (Hlabels k v Hk) as (cols & Hcols & _). congruence. }
  assert (Hloop : forall attrs,
    fold_left (attribute_step m fts ff strict) attrs (None, None)
    = (None, None)).
  { induction attrs as [|a attrs IH]; [reflexivity|]. cbn [fold_left].
    destruct (ff !! a) as [v|] eqn:Hv.
    - rewrite (attribute_step_direct _ _ _ _ _ v) by done.
      destruct (Hlabels a v Hv) as (cols & Hcols & Hlab).
      unfold attribute_filter. rewrite Hcols. cbn [items].
      rewrite labels_contribute_nothing by done. exact IH.
    - rewrite attribute_step_free by done. by rewrite Hfts. }
  unfold search_filters. by rewrite Hloop.
Qed.

Lemma label_only_field_filter_ignored_witness :
  apply_search_filter Examples.q0
    [("hosts", [Label "host_count"]); ("name", [Column Examples.name_col])]
    None {["hosts" := "3"]} [] = Ok Examples.q0.
Proof.
  apply (label_only_field_filter_ignored Examples.q0
           [("hosts", [Label "host_count"]); ("name", [Column Examples.name_col])]
           None {["hosts" := "3"]} []); [|reflexivity].
  intros k v Hv. apply lookup_singleton_Some in Hv as [<- _].
  exists [Label "host_count"]. split; reflexivity.
Defined.

(** X6: what [sort_results] adds to the ordering does not depend on the
    query. On a query without [LIMIT] and [OFFSET] it returns the query
    with these order terms appended: the filters are kept and an ordering
    already on the query keeps priority. On a query that has a [LIMIT] or
    an [OFFSET] it returns the query unchanged when there is nothing to
    add and raises [InvalidRequestError] otherwise. *)
Theorem sort_results_appends_ordering :
  forall (q : query) (field_to_col_map : odict (list mapped))
         (order_field order_dir : string) (default : option order_term),
    let added :=
      match
        sort_results (mk_query [] [] None None) field_to_col_map order_field
          order_dir default
      with
      | Ok q' => q_order_by q'
      | Raise _ => []
      end in
    (has_limit_offset q = false ->
     sort_results q field_to_col_map order_field order_dir default
     = Ok (mk_query (q_filter q) (q_order_by q ++ added)%list (q_limit q)
             (q_offset q))) /\
    (has_limit_offset q = true ->
     sort_results q field_to_col_map order_field order_dir default
     = match added with
       | [] => Ok q
       | _ :: _ => Raise InvalidRequestError
       end).
Proof.
  intros q m order_field order_dir default. unfold sort_results.
  set (order_cols :=
         if list_truthy (odict_get m order_field)
            && str_in order_dir
                 [ORDER_DIRECTIONS.ASCENDING; ORDER_DIRECTIONS.DESCENDING]
         then
           Some
             (map (if String.eqb order_dir ORDER_DIRECTIONS.ASCENDING
                   then Asc else Desc)
                (items (odict_get m order_field)))
         else match default with
              | Some d => Some [d]
              | None => None
              end).
  destruct order_cols as [[|c cols]|]; cbn [list_truthy items]; cbn zeta.
  - split; intros Hq; [|reflexivity]. rewrite app_nil_r. by destruct q.
  - unfold order_by. cbn [has_limit_offset q_limit q_offset q_order_by app].
    split; intros ->; reflexivity.
  - split; intros Hq; [|reflexivity]. rewrite app_nil_r. by destruct q.
Qed.

Lemma sort_results_appends_ordering_witness :
  sort_results Examples.q0 Examples.vuln_map "name" "asc" None
  = Ok (mk_query [] [Asc (Column Examples.name_col)] None None).
Proof.
  apply (proj1 (sort_results_appends_ordering Examples.q0 Examples.vuln_map
                  "name" "asc" None)).
  reflexivity.
Defined.

Lemma firstn_plus {A : Type} (a b : nat) (l : list A) :
  firstn (a + b) l = (firstn a l ++ firstn b (skipn a l))%list.
Proof.
  revert l. induction a as [|a IH]; intros l; [reflexivity|].
  destruct l as [|x l]; [by destruct b|]. cbn. by rewrite IH.
Qed.

(** X7: with a non-negative page size, pages [0] to [n - 1] of a query,
    one after the other, are exactly the first [n * page_size] rows the
    query selects: consecutive pages neither overlap nor leave a gap. *)
Theorem pages_tile_rows :
  forall (A : Type) (q : query) (page_size : Z) (n : nat) (rows : list A),
    0 <= page_size ->
    first_pages q page_size n rows
    = firstn (n * Z.to_nat page_size) rows.
Proof.
  intros A q page_size n rows Hsize. unfold first_pages.
  induction n as [|n IH]; [reflexivity|].
  rewrite seq_S, flat_map_app, IH. cbn [flat_map Nat.add].
  rewrite app_nil_r. unfold paginate.
  destruct (Z.geb_spec (Z.of_nat n) 0) as [_|Hneg]; [|lia].
  destruct (Z.geb_spec page_size 0) as [_|Hneg]; [|lia].
  cbn [andb negb]. unfold page_rows. cbn [q_offset q_limit offset limit].
  rewrite Z2Nat.inj_mul, Nat2Z.id by lia.
  replace (S n * Z.to_nat page_size)%nat
    with (n * Z.to_nat page_size + Z.to_nat page_size)%nat by lia.
  by rewrite firstn_plus.
Qed.

Lemma pages_tile_rows_witness :
  first_pages Examples.q0 2 2 ["a"; "b"; "c"; "d"; "e"]
  = firstn (2 * Z.to_nat 2) ["a"; "b"; "c"; "d"; "e"].
Proof.
  apply (pages_tile_rows string Examples.q0 2 2 ["a"; "b"; "c"; "d"; "e"]).
  lia.
Defined.

(** ** Further properties of the persistence helpers *)

(** A stored value passes the comparison with itself. *)
Lemma sql_eq_refl (v : value) : sql_eq v v = true.
Proof. destruct v; cbn; by rewrite bool_decide_eq_true_2. Qed.

(** X8: when no keyword is bound to a clause, the instance that
    [get_or_create] creates meets its own filters exactly when every
    default that overrides a keyword agrees with it; in particular it does
    when [defaults] and the keywords have no key in common. *)
Theorem created_instance_meets_filters :
  forall (s : session) (model : model_class) (defaults : option record)
         (kwargs : gmap string kwarg) (instance : record) (s' : session),
    (forall k a, kwargs !! k = Some a -> exists v, a = KValue v) ->
    get_or_create s model defaults kwargs = ((instance, true), s') ->
    (filter_by kwargs instance = true <->
     forall k v d,
       kwargs !! k = Some (KValue v) -> default ∅ defaults !! k = Some d ->
       sql_eq d v = true).
Proof.
  intros s model defaults kwargs instance s' Hplain Hcall.
  unfold get_or_create in Hcall.
  destruct (first _ _); [discriminate Hcall|].
  injection Hcall as <- _.
  rewrite filter_by_true. split.
  - intros Hmeets k v d Hk Hd. specialize (Hmeets k _ Hk).
    cbn [criterion] in Hmeets. unfold cell in Hmeets.
    by rewrite created_params_lookup, Hd in Hmeets.
  - intros Hagree k a Hk. destruct (Hplain k a Hk) as [v ->].
    cbn [criterion]. unfold cell. rewrite created_params_lookup, Hk.
    destruct (default ∅ defaults !! k) as [d|] eqn:Hd; cbn [from_option id].
    + by apply (Hagree k v d).
    + apply sql_eq_refl.
Qed.

Lemma created_instance_meets_filters_witness :
  filter_by (Examples.by_ip "10.0.0.3")
    (get_or_create Examples.hosts Examples.host_class
       (Some {["os" := VStr "windows"]}) (Examples.by_ip "10.0.0.3")).1.1
  = true.
Proof.
  apply (proj2 (created_instance_meets_filters Examples.hosts
                  Examples.host_class (Some {["os" := VStr "windows"]})
                  (Examples.by_ip "10.0.0.3") _ _
                  (fun k a Hk =>
                     match proj1 (lookup_singleton_Some _ _ _ _) Hk with
                     | conj _ Ha => ex_intro _ (VStr "10.0.0.3") (eq_sym Ha)
                     end)
                  eq_refl)).
  intros k v d Hk Hd. unfold Examples.by_ip in Hk.
  apply lookup_singleton_Some in Hk as [<- _].
  vm_compute in Hd. discriminate Hd.
Defined.

(** *** Exceptions of conflict detection *)

Section ConflictErrors.

Local Open Scope list_scope.

(** A loop raises what one of its steps raises. *)
Lemma for_each_raise {A S : Type} (step : S -> A -> result S) (xs : list A) :
  forall acc e,
    for_each step xs acc = Raise e ->
    exists x acc', x ∈ xs /\ step acc' x = Raise e.
Proof.
  induction xs as [|x xs IH]; intros acc e Hraise; [discriminate Hraise|].
  cbn [for_each] in Hraise.
  destruct (step acc x) as [acc1|e1] eqn:Hstep; cbn in Hraise.
  - destruct (IH acc1 e Hraise) as (y & acc' & Hy & Hstep').
    exists y, acc'. split; [by right | done].
  - injection Hraise as <-. exists x, acc. split; [by left | done].
Qed.

(** A loop with a step that raises whatever it is given does not return. *)
Lemma for_each_stuck {A S : Type} (step : S -> A -> result S) (xs : list A)
    (x : A) :
  x ∈ xs ->
  (forall acc, exists e, step acc x = Raise e) ->
  forall acc, exists e, for_each step xs acc = Raise e.
Proof.
  intros Hin Hstuck. induction xs as [|y xs IH]; intros acc;
    [by apply elem_of_nil in Hin|].
  cbn [for_each].
  destruct (step acc y) as [acc1|e1] eqn:Hstep; cbn; [|by eexists].
  apply elem_of_cons in Hin as [<-|Hin].
  - destruct (Hstuck acc) as [e He]. congruence.
  - by apply IH.
Qed.

Variable klass : model_class.
Variable obj : object.
Variable data : record.
Variable workspace : option value.
Variable ids : option (list value).

Lemma unique_field_step_raise (filter_data : list cond) (col : string)
    (e : exn) :
  unique_field_step klass obj data filter_data col = Raise e ->
  e = KeyError \/ e = AttributeError.
Proof.
  unfold unique_field_step.
  destruct (cls_columns klass !! col) as [column_default|];
    [|intros [= <-]; by left].
  destruct (data !! col) as [v|]; cbn.
  - destruct v; discriminate.
  - destruct (o_attrs obj !! col) as [v|]; cbn; [|intros [= <-]; by right].
    destruct column_default as [arg|]; [destruct (truthy v); cbn|cbn];
      try (destruct arg; discriminate); destruct v; discriminate.
Qed.

Lemma relations_field_step_raise (filter_data : list cond) (col : string)
    (e : exn) :
  relations_field_step klass data filter_data col = Raise e ->
  e = AssertionError \/ e = AttributeError \/ e = KeyError.
Proof.
  unfold relations_field_step, table_column.
  destruct (negb _ && _).
  - destruct (data !! strip col "_id") as [[| | | |[oid|]]|];
      try (intros [= <-]; by auto).
    destruct (cls_columns klass !! col); cbn [mbind result_bind];
      [discriminate | intros [= <-]; by auto].
  - destruct (truthy _); [|discriminate].
    destruct (cls_columns klass !! col); cbn [mbind result_bind];
      [discriminate | intros [= <-]; by auto].
Qed.

(** A plain column that cannot be read stops the call. *)
Lemma unique_field_step_unreadable (col : string) :
  endswith col "_id" = false ->
  readable klass obj data workspace ids col = false ->
  forall filter_data,
    exists e, unique_field_step klass obj data filter_data col = Raise e.
Proof.
  intros Hplain Hread filter_data. unfold readable, unique_field_step in *.
  rewrite Hplain in Hread.
  destruct (cls_columns klass !! col) as [column_default|]; [|by eexists].
  rewrite bool_decide_eq_true_2 in Hread by (by eexists). cbn [andb] in Hread.
  apply orb_false_elim in Hread as [Hdata Hattr].
  apply bool_decide_eq_false in Hdata, Hattr.
  destruct (data !! col); [exfalso; apply Hdata; by eexists|].
  destruct (o_attrs obj !! col); [exfalso; apply Hattr; by eexists|].
  by eexists.
Qed.

(** So does a relation given as something that is no object with an id,
    and a relation that supplies an id for a column the table lacks. *)
Lemma relations_field_step_unreadable (col : string) :
  endswith col "_id" = true ->
  col <> "workspace_id" ->
  readable klass obj data workspace ids col = false ->
  forall filter_data,
    exists e, relations_field_step klass data filter_data col = Raise e.
Proof.
  intros Hrel Hws Hread filter_data.
  unfold readable, relations_field_step, is_column, table_column in *.
  rewrite Hrel in Hread. apply String.eqb_neq in Hws. rewrite Hws in Hread.
  destruct (data !! col) as [v|].
  - rewrite bool_decide_eq_true_2 by (by eexists).
    cbn [negb andb from_option id].
    apply orb_false_elim in Hread as [Htruthy Hcol].
    apply negb_false_iff in Htruthy. rewrite Htruthy.
    apply bool_decide_eq_false in Hcol.
    destruct (cls_columns klass !! col);
      [exfalso; apply Hcol; by eexists | by eexists].
  - rewrite bool_decide_eq_false_2 by (intros [? ?]; discriminate).
    cbn [negb andb].
    destruct (data !! strip col "_id") as [[| | | |[oid|]]|];
      try discriminate Hread;
      rewrite bool_decide_eq_true_2 by (by eexists); try (by eexists).
    apply bool_decide_eq_false in Hread.
    destruct (cls_columns klass !! col);
      [exfalso; apply Hread; by eexists | by eexists].
Qed.

End ConflictErrors.

Section ConflictObjectErrors.

Local Open Scope list_scope.

Variable VulnerabilityGeneric : model_class.
Variable s : session.
Variable obj : object.
Variable data : record.
Variable workspace : option value.
Variable ids : option (list value).

Lemma remove_first_other (x y : string) (l : list string) :
  y ∈ l -> y <> x -> y ∈ remove_first x l.
Proof.
  induction l as [|z l IH]; intros Hin Hne; [by apply elem_of_nil in Hin|].
  cbn. destruct (String.eqb_spec z x) as [->|Hzx].
  - apply elem_of_cons in Hin as [->|Hin]; [congruence | done].
  - apply elem_of_cons in Hin as [->|Hin]; [by left | right; by apply IH].
Qed.

Lemma forallb_false_elem {A : Type} (f : A -> bool) (l : list A) :
  forallb f l = false -> exists x, x ∈ l /\ f x = false.
Proof.
  induction l as [|y l IH]; [discriminate|]. cbn.
  destruct (f y) eqn:Hy; cbn.
  - intros Hl. destruct (IH Hl) as (x & Hx & Hfx). exists x.
    split; [by right | done].
  - intros _. exists y. split; [by left | done].
Qed.

(** Once the object type is known, the body of the loop raises nothing but
    what reading the candidate raises. *)
Lemma conflict_for_raise (object_type : string) (cols : list string) (e : exn) :
  get_object_type_for obj = Ok object_type ->
  conflict_for VulnerabilityGeneric s obj data workspace ids cols = Raise e ->
  e ∈ [KeyError; AttributeError; AssertionError; TypeError].
Proof.
  intros Hot. unfold conflict_for. rewrite Hot. cbn [mbind result_bind].
  set (klass := if String.eqb object_type "vulnerability"
                then VulnerabilityGeneric else o_class obj).
  destruct (for_each (unique_field_step klass obj data) _ []) as [fd1|e1] eqn:H1;
    cbn [mbind result_bind].
  - assert (Hrel : forall (rels : list string) (fd : list cond),
      (fd3 ← for_each (relations_field_step klass data) rels fd;
       match fd3 with
       | c :: cs =>
           Ok (first (eval_cond (reduce_and c cs)) (query_rows s klass))
       | [] => Ok None
       end) = Raise e ->
      e ∈ [KeyError; AttributeError; AssertionError; TypeError]).
    { intros rels fd.
      destruct (for_each (relations_field_step klass data) rels fd)
        as [fd3|e3] eqn:H3; cbn [mbind result_bind].
      - destruct fd3; discriminate.
      - intros [= ->]. apply for_each_raise in H3 as (x & acc & _ & Hstep).
        apply relations_field_step_raise in Hstep as [-> | [-> | ->]];
          rewrite !elem_of_cons; auto. }
    unfold table_column, class_attribute.
    destruct (str_in "workspace_id" (List.filter _ cols));
      [|cbn [mbind result_bind]; apply Hrel].
    destruct workspace as [workspace_id|].
    + destruct (cls_columns klass !! "workspace_id");
        cbn [mbind result_bind]; [apply Hrel|].
      intros [= <-]. rewrite !elem_of_cons; auto.
    + destruct (str_in "workspace_id" (cls_attrs klass));
        cbn [mbind result_bind];
        [|intros [= <-]; rewrite !elem_of_cons; by auto].
      destruct (str_in "id" (cls_attrs klass)); cbn [mbind result_bind];
        [|intros [= <-]; rewrite !elem_of_cons; by auto].
      destruct ids as [ids_list|]; cbn [mbind result_bind];
        [|intros [= <-]; rewrite !elem_of_cons; by auto 6].
      destruct (cls_columns klass !! "workspace_id");
        cbn [mbind result_bind]; [apply Hrel|].
      intros [= <-]. rewrite !elem_of_cons; auto.
  - intros [= ->]. apply for_each_raise in H1 as (x & acc & _ & Hstep).
    apply unique_field_step_raise in Hstep as [-> | ->];
      rewrite !elem_of_cons; auto.
Qed.

(** A unique column that cannot be read makes the body of the loop raise. *)
Lemma conflict_for_unreadable (object_type : string) (cols : list string)
    (col : string) :
  get_object_type_for obj = Ok object_type ->
  col ∈ cols ->
  readable
    (if String.eqb object_type "vulnerability"
     then VulnerabilityGeneric else o_class obj) obj data workspace ids col
  = false ->
  exists e,
    conflict_for VulnerabilityGeneric s obj data workspace ids cols = Raise e.
Proof.
  intros Hot Hcol Hread. unfold conflict_for. rewrite Hot.
  cbn [mbind result_bind].
  set (klass := if String.eqb object_type "vulnerability"
                then VulnerabilityGeneric else o_class obj) in *.
  destruct (endswith col "_id") eqn:Hrel.
  - destruct (for_each (unique_field_step klass obj data) _ []) as [fd1|e1];
      cbn [mbind result_bind]; [|by eexists].
    assert (Hin : col ∈ List.filter (fun f => endswith f "_id") cols)
      by (by apply filter_elem).
    assert (Hstuck : forall (rels : list string) (fd : list cond),
      col ∈ rels -> col <> "workspace_id" ->
      exists e,
        (fd3 ← for_each (relations_field_step klass data) rels fd;
         match fd3 with
         | c :: cs =>
             Ok (first (eval_cond (reduce_and c cs)) (query_rows s klass))
         | [] => Ok None
         end) = Raise e).
    { intros rels fd Hrels Hne.
      destruct (for_each_stuck (relations_field_step klass data) rels col Hrels
                  (relations_field_step_unreadable klass obj data workspace
                     ids col Hrel Hne Hread) fd) as [e He].
      exists e. by rewrite He. }
    unfold str_in. case_bool_decide as Hws.
    + unfold table_column, class_attribute.
      destruct (String.eqb_spec col "workspace_id") as [->|Hne].
      * unfold readable, is_column in Hread.
        change (endswith "workspace_id" "_id") with true in Hread.
        change (("workspace_id" =? "workspace_id")%string) with true in Hread.
        cbn iota in Hread.
        destruct workspace as [workspace_id|].
        -- apply bool_decide_eq_false in Hread.
           destruct (cls_columns klass !! "workspace_id");
             [exfalso; apply Hread; by eexists|].
           cbn [mbind result_bind]. by eexists.
        -- destruct (str_in "workspace_id" (cls_attrs klass));
             cbn [mbind result_bind]; [|by eexists].
           destruct (str_in "id" (cls_attrs klass));
             cbn [mbind result_bind]; [|by eexists].
           destruct ids as [ids_list|]; cbn [mbind result_bind];
             [|by eexists].
           rewrite bool_decide_eq_true_2 in Hread by (by eexists).
           cbn [andb] in Hread. apply bool_decide_eq_false in Hread.
           destruct (cls_columns klass !! "workspace_id");
             [exfalso; apply Hread; by eexists|].
           cbn [mbind result_bind]. by eexists.
      * assert (Hin' : col ∈ remove_first "workspace_id"
                          (List.filter (fun f => endswith f "_id") cols))
          by (by apply remove_first_other).
        destruct workspace as [workspace_id|].
        -- destruct (cls_columns klass !! "workspace_id");
             cbn [mbind result_bind]; [by apply Hstuck | by eexists].
        -- destruct (str_in "workspace_id" (cls_attrs klass));
             cbn [mbind result_bind]; [|by eexists].
           destruct (str_in "id" (cls_attrs klass));
             cbn [mbind result_bind]; [|by eexists].
           destruct ids as [ids_list|]; cbn [mbind result_bind];
             [|by eexists].
           destruct (cls_columns klass !! "workspace_id");
             cbn [mbind result_bind]; [by apply Hstuck | by eexists].
    + cbn [mbind result_bind]. apply Hstuck; [done|].
      intros ->. by apply Hws.
  - assert (Hin : col ∈ List.filter (fun f => negb (endswith f "_id")) cols).
    { apply filter_elem. split; [done|]. by rewrite Hrel. }
    destruct (for_each_stuck (unique_field_step klass obj data) _ col Hin
                (unique_field_step_unreadable klass obj data workspace ids
                   col Hrel Hread) []) as [e He].
    exists e. by rewrite He.
Qed.

End ConflictObjectErrors.

(** X9: [get_object_type_for], [get_unique_fields] and
    [get_conflict_object] raise [RuntimeError] in the same case, and in
    that case only: the object has no table name and its class is none of
    [Vulnerability], [VulnerabilityWeb] and [VulnerabilityCode]. *)
Theorem conflict_object_runtime_error :
  forall (VulnerabilityGeneric : model_class) (s : session) (obj : object)
         (data : record) (workspace : option value)
         (ids : option (list value)),
    let unknown :=
      cls_tablename (o_class obj) = None /\
      cls_name (o_class obj)
        ∉ ["Vulnerability"; "VulnerabilityWeb"; "VulnerabilityCode"] in
    (get_object_type_for obj = Raise RuntimeError <-> unknown) /\
    (get_unique_fields s obj = Raise RuntimeError <-> unknown) /\
    (get_conflict_object VulnerabilityGeneric s obj data workspace ids
     = Raise RuntimeError <-> unknown).
Proof.
  intros VG s obj data workspace ids unknown.
  assert (Htype :
    (get_object_type_for obj = Raise RuntimeError /\ unknown) \/
    (exists t, get_object_type_for obj = Ok t /\ ~ unknown)).
  { unfold unknown, get_object_type_for, str_in.
    destruct (cls_tablename (o_class obj)) as [t|].
    - right. exists t. split; [done|]. by intros [? _].
    - case_bool_decide as Hname.
      + right. eexists. split; [done|]. by intros [_ ?].
      + by left. }
  unfold get_conflict_object, get_unique_fields.
  destruct Htype as [(Hot & Hunknown) | (t & Hot & Hknown)]; rewrite Hot;
    cbn [mbind result_bind].
  - split; [|split]; (split; [intros _; exact Hunknown | reflexivity]).
  - split; [split; [discriminate | intros Hu; by destruct Hknown]|].
    split; [split; [discriminate | intros Hu; by destruct Hknown]|].
    split; [|intros Hu; by destruct Hknown]. intros Hraise.
    destruct (if negb _ then _ else _) as [|cols rest]; [discriminate|].
    apply (conflict_for_raise VG s obj data workspace ids t) in Hraise;
      [|done].
    rewrite !elem_of_cons, elem_of_nil in Hraise.
    destruct Hraise as [?|[?|[?|[?|[]]]]]; discriminate.
Qed.

Lemma conflict_object_runtime_error_witness :
  get_conflict_object Examples.vulnerability_generic Examples.hosts
    (mk_object (mk_class "Report" None ∅ []) ∅) ∅ None None
  = Raise RuntimeError.
Proof.
  apply (proj2 (proj2 (conflict_object_runtime_error
                         Examples.vulnerability_generic Examples.hosts
                         (mk_object (mk_class "Report" None ∅ []) ∅)
                         ∅ None None))).
  split; [reflexivity|].
  apply (bool_decide_unpack _). vm_compute. exact I.
Defined.

(** X10: when the first yielded column set has no duplicate,
    [get_conflict_object] returns, with a record or with [None], exactly
    when the candidate can be read on every column of that set: every
    plain column is a column of the table and is present in [data] or on
    the object, and a relation given in [data] as an object is an object
    with an id. *)
Theorem conflict_object_returns_iff_readable :
  forall (VulnerabilityGeneric : model_class) (s : session) (obj : object)
         (data : record) (workspace : option value) (ids : option (list value))
         (object_type : string) (cols : list string)
         (rest : list (list string)),
    get_object_type_for obj = Ok object_type ->
    get_unique_fields s obj = Ok (cols :: rest) ->
    NoDup cols ->
    let klass :=
      if String.eqb object_type "vulnerability"
      then VulnerabilityGeneric else o_class obj in
    (exists found,
       get_conflict_object VulnerabilityGeneric s obj data workspace ids
       = Ok found)
    <-> forallb (readable klass obj data workspace ids) cols = true.
Proof.
  intros VG s obj data workspace ids object_type cols rest Hot Hgen Hnd klass.
  unfold get_conflict_object. rewrite Hgen. cbn [mbind result_bind]. split.
  - intros [found Hfound].
    destruct (forallb (readable klass obj data workspace ids) cols) eqn:Hread; [done|].
    apply forallb_false_elem in Hread as (col & Hcol & Hread).
    destruct (conflict_for_unreadable VG s obj data workspace ids
                object_type cols col Hot Hcol Hread) as [e He].
    congruence.
  - intros Hread. eexists.
    by apply (conflict_for_first_agreeing VG s obj data workspace ids
                object_type cols).
Qed.

Lemma conflict_object_returns_iff_readable_witness :
  exists found,
    get_conflict_object Examples.vulnerability_generic Examples.hosts
      Examples.new_host Examples.new_host_data (Some (VInt 7)) None
    = Ok found.
Proof.
  assert (Hnd : NoDup ["ip"; "os"; "workspace_id"])
    by (apply (bool_decide_unpack _); vm_compute; exact I).
  apply (proj2 (conflict_object_returns_iff_readable
                  Examples.vulnerability_generic Examples.hosts
                  Examples.new_host Examples.new_host_data (Some (VInt 7)) None
                  "host" ["ip"; "os"; "workspace_id"] [] eq_refl eq_refl
                  Hnd)).
  vm_compute. reflexivity.
Defined.

(** *** What a returned record is known to satisfy *)

Section ConflictObjectSound.

Local Open Scope list_scope.

Variable klass : model_class.
Variable obj : object.
Variable data : record.

(** A step of either loop keeps the conditions collected so far. *)
Lemma unique_field_step_keeps (filter_data filter_data' : list cond)
    (col : string) :
  unique_field_step klass obj data filter_data col = Ok filter_data' ->
  (forall c, c ∈ filter_data -> c ∈ filter_data') /\
  (forall v, data !! col = Some v -> v <> VNone ->
             CEq col v ∈ filter_data').
Proof.
  unfold unique_field_step.
  destruct (cls_columns klass !! col) as [column_default|]; [|discriminate].
  assert (Hadd : forall v,
    match v with
    | VNone => Ok filter_data
    | _ => Ok (filter_data ++ [CEq col v])
    end = Ok filter_data' ->
    (forall c, c ∈ filter_data -> c ∈ filter_data') /\
    (v <> VNone -> CEq col v ∈ filter_data')).
  { intros v Hv.
    destruct v; injection Hv as <-; split;
      try (intros c Hc; apply elem_of_app; by left);
      try (intros _; apply elem_of_app; right; by left);
      done. }
  destruct (data !! col) as [v|]; cbn [mbind result_bind].
  - intros Hstep. apply Hadd in Hstep as [Hkeep Hnew].
    split; [exact Hkeep|]. intros v' [= <-]. exact Hnew.
  - destruct (o_attrs obj !! col) as [v|]; [|discriminate].
    intros Hstep. split; [|discriminate].
    destruct column_default as [arg|]; [destruct (truthy v)|];
      cbn in Hstep; by apply Hadd in Hstep as [Hkeep _].
Qed.

Lemma relations_field_step_keeps (filter_data filter_data' : list cond)
    (col : string) :
  relations_field_step klass data filter_data col = Ok filter_data' ->
  forall c, c ∈ filter_data -> c ∈ filter_data'.
Proof.
  unfold relations_field_step, table_column.
  destruct (negb _ && _).
  - destruct (data !! strip col "_id") as [[| | | |[oid|]]|];
      try discriminate.
    destruct (cls_columns klass !! col); cbn [mbind result_bind];
      [|discriminate].
    intros [= <-] c Hc. apply elem_of_app. by left.
  - destruct (truthy _); [|by intros [= <-]].
    destruct (cls_columns klass !! col); cbn [mbind result_bind];
      [|discriminate].
    intros [= <-] c Hc. apply elem_of_app. by left.
Qed.

Lemma unique_fields_loop_keeps (cols : list string) :
  forall filter_data filter_data',
    for_each (unique_field_step klass obj data) cols filter_data
    = Ok filter_data' ->
    (forall c, c ∈ filter_data -> c ∈ filter_data') /\
    (forall col v, col ∈ cols -> data !! col = Some v -> v <> VNone ->
                   CEq col v ∈ filter_data').
Proof.
  induction cols as [|x cols IH]; intros fd fd' Hloop.
  - injection Hloop as <-. split; [done|].
    intros col v Hcol. by apply elem_of_nil in Hcol.
  - cbn [for_each] in Hloop.
    destruct (unique_field_step klass obj data fd x) as [fd1|] eqn:Hstep;
      [|discriminate]. cbn [mbind result_bind] in Hloop.
    apply unique_field_step_keeps in Hstep as [Hkeep1 Hnew1].
    apply IH in Hloop as [Hkeep Hnew]. split; [by auto|].
    intros col v Hcol Hv Hne. apply elem_of_cons in Hcol as [->|Hcol].
    + by apply Hkeep, Hnew1.
    + by apply (Hnew col).
Qed.

Lemma relations_loop_keeps (cols : list string) :
  forall filter_data filter_data',
    for_each (relations_field_step klass data) cols filter_data = Ok filter_data' ->
    forall c, c ∈ filter_data -> c ∈ filter_data'.
Proof.
  induction cols as [|x cols IH]; intros fd fd' Hloop.
  - by injection Hloop as <-.
  - cbn [for_each] in Hloop.
    destruct (relations_field_step klass data fd x) as [fd1|] eqn:Hstep;
      [|discriminate]. cbn [mbind result_bind] in Hloop.
    intros c Hc. apply (IH _ _ Hloop).
    by apply (relations_field_step_keeps _ _ _ Hstep).
Qed.

(** The record the final query returns is stored and passes every
    collected condition. *)
Lemma conflict_query_sound (rows : list record) (filter_data : list cond)
    (r : record) :
  match filter_data with
  | c :: cs => Ok (first (eval_cond (reduce_and c cs)) rows)
  | [] => Ok None
  end = Ok (Some r) ->
  r ∈ rows /\ forall c, c ∈ filter_data -> eval_cond c r = true.
Proof.
  destruct filter_data as [|c cs]; [discriminate|].
  intros [= Hfind]. unfold first in Hfind.
  apply find_some in Hfind as [Hin Heval].
  split; [by apply list_elem_of_In|].
  rewrite reduce_and_eval, forallb_forall in Heval.
  intros c' Hc'. apply Heval. by apply list_elem_of_In.
Qed.

End ConflictObjectSound.

(** X11: a record that [get_conflict_object] returns is a stored record of
    the class that is queried; on every plain column of the first yielded
    column set it holds the value [data] gives, when that value is not
    [None]; and, when [workspace_id] is in that set, it lies in the given
    workspace, or in the workspace of one of the records [ids] when no
    workspace is given. *)
Theorem conflict_object_sound :
  forall (VulnerabilityGeneric : model_class) (s : session) (obj : object)
         (data : record) (workspace : option value) (ids : option (list value))
         (object_type : string) (cols : list string)
         (rest : list (list string)) (r : record),
    get_object_type_for obj = Ok object_type ->
    get_unique_fields s obj = Ok (cols :: rest) ->
    get_conflict_object VulnerabilityGeneric s obj data workspace ids
    = Ok (Some r) ->
    let klass :=
      if String.eqb object_type "vulnerability"
      then VulnerabilityGeneric else o_class obj in
    r ∈ query_rows s klass /\
    (forall col v,
       col ∈ cols -> endswith col "_id" = false ->
       data !! col = Some v -> v <> VNone -> cell r col = v) /\
    ("workspace_id" ∈ cols -> in_workspace s klass workspace ids r = true).
Proof.
  intros VG s obj data workspace ids object_type cols rest r Hot Hgen Hcall klass.
  unfold get_conflict_object in Hcall. rewrite Hgen in Hcall.
  cbn [mbind result_bind] in Hcall. unfold conflict_for in Hcall.
  rewrite Hot in Hcall. cbn [mbind result_bind] in Hcall. fold klass in Hcall.
  destruct (for_each (unique_field_step klass obj data) _ []) as [fd1|] eqn:H1;
    [|discriminate]. cbn [mbind result_bind] in Hcall.
  apply unique_fields_loop_keeps in H1 as [_ Hplain].
  assert (Hfinish : forall (rels : list string) (fd2 : list cond),
    (fd3 ← for_each (relations_field_step klass data) rels fd2;
     match fd3 with
     | c :: cs => Ok (first (eval_cond (reduce_and c cs)) (query_rows s klass))
     | [] => Ok None
     end) = Ok (Some r) ->
    r ∈ query_rows s klass /\ forall c, c ∈ fd2 -> eval_cond c r = true).
  { intros rels fd2 Hrun.
    destruct (for_each (relations_field_step klass data) rels fd2) as [fd3|] eqn:H3;
      [|discriminate]. cbn [mbind result_bind] in Hrun.
    apply conflict_query_sound in Hrun as [Hin Hall]. split; [done|].
    intros c Hc. apply Hall. by apply (relations_loop_keeps klass data _ _ _ H3). }
  assert (Hvalues : forall fd2 : list cond,
    (forall c, c ∈ fd1 -> c ∈ fd2) ->
    (forall c, c ∈ fd2 -> eval_cond c r = true) ->
    forall col v,
      col ∈ cols -> endswith col "_id" = false ->
      data !! col = Some v -> v <> VNone -> cell r col = v).
  { intros fd2 Hsub Hall col v Hcol Hrel Hv Hne.
    assert (Hc : CEq col v ∈ fd1).
    { apply (Hplain col v); [|done|done].
      apply filter_elem. split; [done|]. by rewrite Hrel. }
    apply Hsub, Hall in Hc. cbn [eval_cond] in Hc.
    destruct v; try done; by apply bool_decide_eq_true in Hc. }
  unfold str_in in Hcall. case_bool_decide as Hws.
  - unfold table_column, class_attribute in Hcall.
    destruct workspace as [workspace_id|].
    + destruct (cls_columns klass !! "workspace_id");
        cbn [mbind result_bind] in Hcall; [|discriminate].
      apply Hfinish in Hcall as [Hin Hall]. split; [exact Hin|]. split.
      * apply (Hvalues _ (fun c Hc => proj2 (elem_of_app _ _ c) (or_introl Hc))
                 Hall).
      * intros _. apply (Hall (CEq "workspace_id" workspace_id)).
        apply elem_of_app. right. by left.
    + destruct (str_in "workspace_id" (cls_attrs klass));
        cbn [mbind result_bind] in Hcall; [|discriminate].
      destruct (str_in "id" (cls_attrs klass));
        cbn [mbind result_bind] in Hcall; [|discriminate].
      destruct ids as [ids_list|]; cbn [mbind result_bind] in Hcall;
        [|discriminate].
      destruct (cls_columns klass !! "workspace_id");
        cbn [mbind result_bind] in Hcall; [|discriminate].
      apply Hfinish in Hcall as [Hin Hall]. split; [exact Hin|]. split.
      * apply (Hvalues _ (fun c Hc => proj2 (elem_of_app _ _ c) (or_introl Hc))
                 Hall).
      * intros _.
        apply (Hall (CIn "workspace_id"
                       (map (fun r0 => cell r0 "workspace_id")
                          (List.filter
                             (fun r0 => eval_cond (CIn "id" ids_list) r0)
                             (query_rows s klass))))).
        apply elem_of_app. right. by left.
  - cbn [mbind result_bind] in Hcall.
    apply Hfinish in Hcall as [Hin Hall]. split; [exact Hin|]. split.
    + by apply (Hvalues fd1).
    + intros Hcol. exfalso. apply Hws. by apply filter_elem.
Qed.

Lemma conflict_object_sound_witness :
  Examples.host_1 ∈ query_rows Examples.hosts Examples.host_class /\
  (forall col v,
     col ∈ ["ip"; "os"; "workspace_id"] -> endswith col "_id" = false ->
     Examples.new_host_data !! col = Some v -> v <> VNone ->
     cell Examples.host_1 col = v) /\
  ("workspace_id" ∈ ["ip"; "os"; "workspace_id"] ->
   in_workspace Examples.hosts Examples.host_class (Some (VInt 7)) None
     Examples.host_1 = true).
Proof.
  apply (conflict_object_sound Examples.vulnerability_generic Examples.hosts
           Examples.new_host Examples.new_host_data (Some (VInt 7)) None
           "host" ["ip"; "os"; "workspace_id"] [] Examples.host_1);
    vm_compute; reflexivity.
Defined.

(** X12: only the first yielded column set decides: two sessions that
    return the same rows and reflect the same first unique constraint give
    the same answer, whatever further constraints they reflect; a conflict
    on a later constraint is never looked for. *)
Theorem conflict_object_first_set_decides :
  forall (VulnerabilityGeneric : model_class) (s s' : session) (obj : object)
         (data : record) (workspace : option value) (ids : option (list value))
         (cols : list string) (rest rest' : list (list string)),
    s_rows s = s_rows s' ->
    get_unique_fields s obj = Ok (cols :: rest) ->
    get_unique_fields s' obj = Ok (cols :: rest') ->
    get_conflict_object VulnerabilityGeneric s obj data workspace ids
    = get_conflict_object VulnerabilityGeneric s' obj data workspace ids.
Proof.
  intros VG s s' obj data workspace ids cols rest rest' Hrows Hgen Hgen'.
  unfold get_conflict_object. rewrite Hgen, Hgen'. cbn [mbind result_bind].
  unfold conflict_for, query_rows. by rewrite Hrows.
Qed.

Lemma conflict_object_first_set_decides_witness :
  get_conflict_object Examples.vulnerability_generic Examples.hosts
    Examples.new_host Examples.new_host_data (Some (VInt 7)) None
  = get_conflict_object Examples.vulnerability_generic
      (mk_session (s_rows Examples.hosts) []
         {["host" := [["ip"; "os"; "workspace_id"]; ["os"]]]})
      Examples.new_host Examples.new_host_data (Some (VInt 7)) None.
Proof.
  apply (conflict_object_first_set_decides Examples.vulnerability_generic
           Examples.hosts
           (mk_session (s_rows Examples.hosts) []
              {["host" := [["ip"; "os"; "workspace_id"]; ["os"]]]})
           Examples.new_host Examples.new_host_data (Some (VInt 7)) None
           ["ip"; "os"; "workspace_id"] [] [["os"]]);
    reflexivity.
Defined.

(** *** The key under which a related object is looked up *)

Section StripSuffix.

Local Open Scope string_scope.

Lemma append_cons (a : ascii) (s t : string) :
  String a s ++ t = String a (s ++ t).
Proof. reflexivity. Qed.

Lemma append_nil_r (s : string) : s ++ EmptyString = s.
Proof.
  induction s as [|a s IH]; [reflexivity|].
  by rewrite append_cons, IH.
Qed.

Lemma append_assoc (s t u : string) : (s ++ t) ++ u = s ++ (t ++ u).
Proof.
  induction s as [|a s IH]; [reflexivity|].
  by rewrite !append_cons, IH.
Qed.

Lemma rev_app_spec (s t : string) :
  String.rev_app s t = String.rev s ++ t.
Proof.
  unfold String.rev. revert t.
  induction s as [|a s IH]; intros t; [reflexivity|].
  cbn [String.rev_app]. rewrite IH, (IH (String a EmptyString)).
  rewrite append_assoc. reflexivity.
Qed.

Lemma rev_append (s t : string) :
  String.rev (s ++ t) = String.rev t ++ String.rev s.
Proof.
  induction s as [|a s IH].
  - change (EmptyString ++ t) with t. change (String.rev EmptyString) with EmptyString.
    by rewrite append_nil_r.
  - rewrite append_cons. unfold String.rev at 1 3. cbn [String.rev_app].
    rewrite !rev_app_spec, IH. by rewrite append_assoc.
Qed.

Variable chars : list ascii.

(** Stripping a concatenation: the second part is reached only when the
    first is stripped away. *)
Lemma lstrip_append (s t : string) :
  lstrip chars (s ++ t)
  = match lstrip chars s with
    | EmptyString => lstrip chars t
    | String _ _ as rest => rest ++ t
    end.
Proof.
  induction s as [|a s IH].
  - change (EmptyString ++ t) with t. cbn [lstrip].
    reflexivity.
  - rewrite append_cons. cbn [lstrip]. case_bool_decide; [exact IH|].
    by rewrite append_cons.
Qed.

End StripSuffix.

(** Stripping [_id] from a name that ends in [_id] strips the stem too. *)
Lemma strip_id_suffix (stem : string) :
  strip (stem ++ "_id") "_id" = strip stem "_id".
Proof.
  unfold strip. cbn [list_ascii_of_string].
  set (cs := ["_"; "i"; "d"]%char).
  rewrite lstrip_append.
  change (lstrip cs "_id") with EmptyString.
  destruct (lstrip cs stem) as [|a rest] eqn:Hstem; [reflexivity|].
  rewrite rev_append, lstrip_append.
  change (lstrip cs (String.rev "_id")) with EmptyString.
  reflexivity.
Qed.

(** X13: for a relation column [x_id] that [data] does not give, the
    related object is looked up under [x] stripped of leading and trailing
    [_], [i] and [d] characters, not under [x]. An object with an id found
    there supplies the comparison with its id when the table has the
    column [x_id], and the lookup of the column raises [KeyError] when it
    has not; when nothing is stored there the column is not compared at
    all. *)
Theorem relation_looked_up_under_stripped_stem :
  forall (klass : model_class) (data : record) (filter_data : list cond)
         (stem : string),
    data !! (stem ++ "_id") = None ->
    (forall id,
       data !! strip stem "_id" = Some (VObj (Some id)) ->
       (is_Some (cls_columns klass !! (stem ++ "_id")) ->
        relations_field_step klass data filter_data (stem ++ "_id")
        = Ok (filter_data ++ [CEq (stem ++ "_id") (VInt id)])%list) /\
       (cls_columns klass !! (stem ++ "_id") = None ->
        relations_field_step klass data filter_data (stem ++ "_id")
        = Raise KeyError)) /\
    (data !! strip stem "_id" = None ->
     relations_field_step klass data filter_data (stem ++ "_id")
     = Ok filter_data).
Proof.
  intros klass data filter_data stem Hdata.
  unfold relations_field_step, table_column.
  rewrite strip_id_suffix, Hdata.
  rewrite bool_decide_eq_false_2 by (intros [? ?]; discriminate).
  cbn [negb andb]. split.
  - intros id Hobj. rewrite Hobj.
    rewrite bool_decide_eq_true_2 by (by eexists). split.
    + intros [column_default Hcol]. by rewrite Hcol.
    + intros Hcol. by rewrite Hcol.
  - intros Hnone. rewrite Hnone.
    by rewrite bool_decide_eq_false_2 by (intros [? ?]; discriminate).
Qed.

Lemma relation_looked_up_under_stripped_stem_witness :
  relations_field_step Examples.vulnerability_generic
    {["host" := VObj (Some 5)]} [] ("host" ++ "_id")
  = Ok [CEq ("host" ++ "_id") (VInt 5)] /\
  relations_field_step Examples.vulnerability_generic
    {["command" := VObj (Some 5)]} [] ("command" ++ "_id")
  = Ok [].
Proof.
  split.
  - apply (relation_looked_up_under_stripped_stem
             Examples.vulnerability_generic
             {["host" := VObj (Some 5)]} [] "host");
      vm_compute; try reflexivity.
    by eexists.
  - apply (relation_looked_up_under_stripped_stem
             Examples.vulnerability_generic
             {["command" := VObj (Some 5)]} [] "command");
      vm_compute; reflexivity.
Defined.

(** ** Properties of the dialect-specific helpers *)

Import Dialect.

(** X14: off PostgreSQL every exception counts both as a unique violation
    and as a not-null violation, and its code is not looked at; on
    PostgreSQL the two never hold together: each holds exactly for its own
    code, and a code that is no string fails the assertion. *)
Theorem constraint_violation_classification :
  forall (dialect_name : string) (pgcode : value),
    (dialect_name <> "postgresql" ->
     is_unique_constraint_violation dialect_name pgcode = Ok true /\
     not_null_constraint_violation dialect_name pgcode = Ok true) /\
    (dialect_name = "postgresql" ->
     (is_unique_constraint_violation dialect_name pgcode = Ok true
      <-> pgcode = VStr "23505") /\
     (not_null_constraint_violation dialect_name pgcode = Ok true
      <-> pgcode = VStr "23502") /\
     ~ (is_unique_constraint_violation dialect_name pgcode = Ok true /\
        not_null_constraint_violation dialect_name pgcode = Ok true) /\
     ((forall code, pgcode <> VStr code) ->
      is_unique_constraint_violation dialect_name pgcode = Raise AssertionError /\
      not_null_constraint_violation dialect_name pgcode = Raise AssertionError)).
Proof.
  intros dialect_name pgcode.
  unfold is_unique_constraint_violation, not_null_constraint_violation,
    UNIQUE_VIOLATION, NOT_NULL_VIOLATION.
  split.
  - intros Hne. apply String.eqb_neq in Hne. by rewrite Hne.
  - intros ->. cbn [String.eqb negb].
    change (("postgresql" =? "postgresql")%string) with true. cbn [negb].
    assert (Hu : match pgcode with
                 | VStr code => Ok (code =? "23505")%string
                 | _ => Raise AssertionError
                 end = Ok true <-> pgcode = VStr "23505").
    { destruct pgcode as [| | |code|]; try (split; discriminate).
      split.
      - intros [= Heq]. apply String.eqb_eq in Heq. by subst.
      - intros [= ->]. reflexivity. }
    assert (Hn : match pgcode with
                 | VStr code => Ok (code =? "23502")%string
                 | _ => Raise AssertionError
                 end = Ok true <-> pgcode = VStr "23502").
    { destruct pgcode as [| | |code|]; try (split; discriminate).
      split.
      - intros [= Heq]. apply String.eqb_eq in Heq. by subst.
      - intros [= ->]. reflexivity. }
    split; [exact Hu|]. split; [exact Hn|]. split.
    + intros [H1 H2]. apply Hu in H1. apply Hn in H2. congruence.
    + intros Hcode. destruct pgcode as [| | |code|]; try done.
      by destruct (Hcode code).
Qed.

Lemma constraint_violation_classification_witness :
  is_unique_constraint_violation "sqlite" VNone = Ok true /\
  (is_unique_constraint_violation "postgresql" (VStr "23505") = Ok true
   <-> VStr "23505" = VStr "23505").
Proof.
  split.
  - apply (proj1 (constraint_violation_classification "sqlite" VNone)).
    discriminate.
  - apply (proj2 (constraint_violation_classification "postgresql"
                    (VStr "23505")) eq_refl).
Defined.

(** X15: the PostgreSQL rendering of [GroupConcat] fails (an index out of
    range) exactly when the element has no clause; with exactly two clauses
    the rendering of the second is the separator; with any other number the
    separator is a comma and the clauses after the first are ignored. *)
Theorem group_concat_rendering :
  forall (expr : Type) (process : expr -> string) (clauses : list expr),
    (_group_concat_postgresql expr process clauses = None <-> clauses = []) /\
    (forall first_clause separator,
       clauses = [first_clause; separator] ->
       _group_concat_postgresql expr process clauses
       = Some ("array_to_string(array_agg(" ++ process first_clause ++ "), '"
               ++ process separator ++ "')")) /\
    (forall first_clause rest,
       clauses = first_clause :: rest -> length rest <> 1%nat ->
       _group_concat_postgresql expr process clauses
       = _group_concat_postgresql expr process [first_clause] /\
       _group_concat_postgresql expr process clauses
       = Some ("array_to_string(array_agg(" ++ process first_clause
               ++ "), ',')")).
Proof.
  intros expr process clauses. unfold _group_concat_postgresql.
  split; [|split].
  - destruct clauses as [|a [|b [|c rest]]]; cbn; split; congruence.
  - intros a b ->. reflexivity.
  - intros a rest -> Hlen.
    destruct rest as [|b [|c rest]]; cbn in *; [done | congruence | done].
Qed.

Lemma group_concat_rendering_witness :
  _group_concat_postgresql string (fun e => e) ["name"; "x"; "y"]
  = Some "array_to_string(array_agg(name), ',')".
Proof.
  apply (proj2 (proj2 (group_concat_rendering string (fun e => e)
                         ["name"; "x"; "y"])) "name" ["x"; "y"] eq_refl).
  discriminate.
Defined.

(** ** Further properties of the role-weight migration *)

Section UpgradeCases.

Local Open Scope list_scope.

Lemma existsb_map_ext {A B : Type} (f : B -> bool) (g : A -> B)
    (h : A -> bool) (l : list A) :
  (forall x, f (g x) = h x) -> existsb f (map g l) = existsb h l.
Proof.
  intros Hfg. induction l as [|x l IH]; [reflexivity|].
  cbn. by rewrite Hfg, IH.
Qed.

(** Every way [upgrade] can end. *)
Lemma upgrade_cases (db : database) :
  upgrade db
  = match db !! "faraday_role" with
    | None => Raise ProgrammingError
    | Some t =>
        if bool_decide ("weight" ∈ column_names t) then Raise ProgrammingError
        else if bool_decide ("name" ∈ column_names t) then
          if existsb
               (fun r => bool_decide
                           (default VNone (weighted r !! "weight") = VNone))
               (tb_rows t)
          then Raise IntegrityError
          else Ok (<["faraday_role" :=
                      mk_table
                        (tb_columns t ++ [mk_column_def "weight" Integer false])
                        (map weighted (tb_rows t))]> db)
        else Raise ProgrammingError
    end.
Proof.
  destruct (db !! "faraday_role") as [t|] eqn:Ht;
    [|unfold upgrade, add_column; by rewrite Ht].
  case_bool_decide as Hweight.
  { unfold upgrade, add_column, has_column. rewrite Ht.
    by rewrite bool_decide_eq_true_2. }
  unfold upgrade.
  rewrite (add_column_role db t (mk_column_def "weight" Integer true))
    by done.
  cbn [mbind result_bind cd_name].
  set (wcol := mk_column_def "weight" Integer true).
  assert (Hw : "weight" ∈ map cd_name (tb_columns t ++ [wcol])).
  { rewrite map_app. apply elem_of_app. right. by left. }
  case_bool_decide as Hname.
  - assert (Hn : "name" ∈ map cd_name (tb_columns t ++ [wcol])).
    { rewrite map_app. apply elem_of_app. by left. }
    do 4 (rewrite execute_role by done;
          cbn [mbind result_bind tb_columns tb_rows]).
    unfold alter_column, has_column. rewrite lookup_insert_eq.
    unfold column_names. cbn [tb_columns tb_rows].
    rewrite bool_decide_eq_true_2 by done. cbn [negb andb].
    rewrite !map_map.
    rewrite (existsb_map_ext _ _
               (fun r => bool_decide
                           (default VNone (weighted r !! "weight") = VNone)))
      by (intros r; by rewrite weight_updates_row).
    destruct (existsb _ (tb_rows t)); [reflexivity|].
    rewrite insert_insert_eq. f_equal. f_equal. f_equal.
    + rewrite map_app, set_nullable_other by done. reflexivity.
    + apply map_ext. intros r. apply weight_updates_row.
  - unfold execute, has_column. cbn [u_table set_weight u_set_col u_where_col].
    rewrite lookup_insert_eq. unfold column_names. cbn [tb_columns].
    rewrite bool_decide_eq_true_2 by done.
    rewrite bool_decide_eq_false_2; [reflexivity|].
    rewrite map_app. intros Hin. apply elem_of_app in Hin as [Hin|Hin];
      [done|]. apply list_elem_of_singleton in Hin. discriminate Hin.
Qed.

End UpgradeCases.

(** What a successful [upgrade] started from and produced. *)
Lemma upgrade_success (db db' : database) :
  upgrade db = Ok db' ->
  exists t,
    db !! "faraday_role" = Some t /\
    ("weight" ∉ column_names t) /\
    ("name" ∈ column_names t) /\
    Forall (fun r => default VNone (weighted r !! "weight") <> VNone)
      (tb_rows t) /\
    db' = (<["faraday_role" :=
              mk_table (tb_columns t ++ [mk_column_def "weight" Integer false])%list
                (map weighted (tb_rows t))]> db).
Proof.
  rewrite upgrade_cases.
  destruct (db !! "faraday_role") as [t|]; [|discriminate].
  case_bool_decide as Hweight; [discriminate|].
  case_bool_decide as Hname; [|discriminate].
  destruct (existsb _ _) eqn:Hnull; [discriminate|].
  intros [= <-]. exists t. repeat split; try done.
  apply List.Forall_forall. intros r Hin Hr.
  apply not_true_iff_false in Hnull. apply Hnull.
  apply existsb_exists. exists r. split; [done|].
  by apply bool_decide_eq_true.
Qed.

(** The weight column of a weighted row. *)
Lemma weighted_weight (r : gmap string value) :
  (forall k, k <> "weight" -> weighted r !! k = r !! k) /\
  (default VNone (weighted r !! "weight") <> VNone ->
   (exists name,
      r !! "name" = Some (VStr name) /\
      name ∈ ["admin"; "asset_owner"; "pentester"; "client"]) /\
   weighted r !! "weight"
     ∈ [Some (VInt 40); Some (VInt 30); Some (VInt 20); Some (VInt 10)]).
Proof.
  unfold weighted. split.
  - intros k Hk.
    destruct (r !! "name") as [[| | |n|]|]; by rewrite lookup_insert_ne.
  - destruct (r !! "name") as [[| | |n|oid]|] eqn:Hr; rewrite lookup_insert_eq;
      cbn [from_option id]; try done.
    unfold role_weight.
    destruct (String.eqb_spec n "admin") as [->|?];
      [intros _; split; [eexists; split; [done|] |]; rewrite !elem_of_cons; auto|].
    destruct (String.eqb_spec n "asset_owner") as [->|?];
      [intros _; split; [eexists; split; [done|] |]; rewrite !elem_of_cons; auto|].
    destruct (String.eqb_spec n "pentester") as [->|?];
      [intros _; split; [eexists; split; [done|] |]; rewrite !elem_of_cons; auto|].
    destruct (String.eqb_spec n "client") as [->|?];
      [intros _; split; [eexists; split; [done|] |]; rewrite !elem_of_cons;
       auto 6|].
    done.
Qed.

(** X16: whenever [upgrade] succeeds, no table but [faraday_role] is
    changed; that table gets the one column [weight], integer and [NOT
    NULL], after the columns it had; every role row keeps all its other
    values and holds one of the weights 40, 30, 20 and 10. *)
Theorem upgrade_touches_weight_only :
  forall (db db' : database),
    upgrade db = Ok db' ->
    (forall table_name,
       table_name <> "faraday_role" -> db' !! table_name = db !! table_name) /\
    exists t t',
      db !! "faraday_role" = Some t /\
      db' !! "faraday_role" = Some t' /\
      tb_columns t'
      = (tb_columns t ++ [mk_column_def "weight" Integer false])%list /\
      tb_rows t' = map weighted (tb_rows t) /\
      forall r,
        r ∈ tb_rows t ->
        (forall k, k <> "weight" -> weighted r !! k = r !! k) /\
        weighted r !! "weight"
          ∈ [Some (VInt 40); Some (VInt 30); Some (VInt 20); Some (VInt 10)].
Proof.
  intros db db' Hup.
  apply upgrade_success in Hup as (t & Ht & Hweight & Hname & Hrows & ->).
  split.
  - intros table_name Hne. by rewrite lookup_insert_ne.
  - exists t. eexists. split; [exact Ht|]. rewrite lookup_insert_eq.
    split; [reflexivity|]. cbn [tb_columns tb_rows].
    split; [reflexivity|]. split; [reflexivity|].
    intros r Hr. rewrite List.Forall_forall in Hrows.
    apply list_elem_of_In in Hr. specialize (Hrows r Hr).
    destruct (weighted_weight r) as [Hother Hw].
    split; [exact Hother|]. by apply Hw.
Qed.

Lemma upgrade_touches_weight_only_witness :
  exists t t',
    Examples.roles_db !! "faraday_role" = Some t /\
    <["faraday_role" :=
        mk_table
          (tb_columns Examples.role_table
           ++ [mk_column_def "weight" Integer false])%list
          (map weighted (tb_rows Examples.role_table))]> Examples.roles_db
      !! "faraday_role" = Some t' /\
    tb_rows t' = map weighted (tb_rows t).
Proof.
  destruct (upgrade_touches_weight_only Examples.roles_db
              (<["faraday_role" :=
                   mk_table
                     (tb_columns Examples.role_table
                      ++ [mk_column_def "weight" Integer false])%list
                     (map weighted (tb_rows Examples.role_table))]>
                 Examples.roles_db))
    as (_ & t & t' & Ht & Ht' & _ & Hrows & _).
  - vm_compute. reflexivity.
  - exists t, t'. auto.
Defined.

(** A row has a weight exactly when it is one of the four roles. *)
Lemma weight_null_iff (r : gmap string value) :
  default VNone (weighted r !! "weight") = VNone
  <-> ~ exists name,
          r !! "name" = Some (VStr name) /\
          name ∈ ["admin"; "asset_owner"; "pentester"; "client"].
Proof.
  split.
  - intros Hnull (name & Hr & Hknown).
    destruct (weighted_known_role r name Hr Hknown) as (Hw & Hne & _).
    rewrite Hw in Hnull. by apply Hne.
  - intros Hunknown.
    destruct (decide (default VNone (weighted r !! "weight") = VNone))
      as [Hnull|Hnull]; [done|].
    apply weighted_weight in Hnull as [Hknown _]. contradiction.
Qed.

(** X17: on a [faraday_role] table whose [name] column is a [String]
    column, so that comparing it with a role name is well-typed, and that
    has no [weight] column, [upgrade] fails with [IntegrityError] exactly
    when some row is not one of the roles [admin], [asset_owner],
    [pentester] and [client], and succeeds exactly when every row is one
    of them. *)
Theorem upgrade_fails_on_other_roles :
  forall (db : database) (t : table),
    db !! "faraday_role" = Some t ->
    "weight" ∉ column_names t ->
    string_column t "name" ->
    let known_role (r : gmap string value) :=
      exists name,
        r !! "name" = Some (VStr name) /\
        name ∈ ["admin"; "asset_owner"; "pentester"; "client"] in
    (upgrade db = Raise IntegrityError
     <-> exists r, r ∈ tb_rows t /\ ~ known_role r) /\
    ((exists db', upgrade db = Ok db')
     <-> forall r, r ∈ tb_rows t -> known_role r).
Proof.
  intros db t Ht Hweight (c & Hc & Hcname & _) known_role.
  assert (Hname : "name" ∈ column_names t).
  { unfold column_names. rewrite <- Hcname.
    apply list_elem_of_In, in_map. by apply list_elem_of_In. }
  rewrite upgrade_cases, Ht.
  rewrite bool_decide_eq_false_2, bool_decide_eq_true_2 by done.
  destruct (existsb _ (tb_rows t)) eqn:Hnull.
  - apply existsb_exists in Hnull as (r & Hin & Hr).
    apply bool_decide_eq_true, weight_null_iff in Hr.
    apply list_elem_of_In in Hin. split.
    + split; [|done]. intros _. by exists r.
    + split; [by intros [db' Hdb']|].
      intros Hall. exfalso. apply Hr. by apply Hall.
  - assert (Hall : forall r, r ∈ tb_rows t -> known_role r).
    { intros r Hin.
      destruct (decide (default VNone (weighted r !! "weight") = VNone))
        as [Hr|Hr]; [|by apply weighted_weight in Hr as [? _]].
      apply not_true_iff_false in Hnull. exfalso. apply Hnull.
      apply existsb_exists. exists r.
      split; [by apply list_elem_of_In | by apply bool_decide_eq_true]. }
    split.
    + split; [discriminate|]. intros (r & Hin & Hr). exfalso.
      by apply Hr, Hall.
    + split; [done|]. intros _. by eexists.
Qed.

Lemma upgrade_fails_on_other_roles_witness :
  exists db', upgrade Examples.roles_db = Ok db'.
Proof.
  assert (Hweight : "weight" ∉ column_names Examples.role_table)
    by (apply (bool_decide_unpack _); vm_compute; exact I).
  assert (Hname : string_column Examples.role_table "name").
  { exists (mk_column_def "name" (OtherSql "String") false).
    split; [|split; reflexivity].
    unfold Examples.role_table. cbn [tb_columns]. right. by left. }
  apply (proj2 (upgrade_fails_on_other_roles Examples.roles_db
                  Examples.role_table eq_refl Hweight Hname)).
  intros r Hr. unfold Examples.role_table in Hr. cbn [tb_rows] in Hr.
  apply elem_of_cons in Hr as [->|Hr].
  { exists "admin". split; [reflexivity|]. by left. }
  apply elem_of_cons in Hr as [->|Hr].
  { exists "client". split; [reflexivity|]. rewrite !elem_of_cons. auto 6. }
  by apply elem_of_nil in Hr.
Defined.

(** X18: neither direction can be run twice in a row: after a successful
    [upgrade] a second [upgrade] fails because the column exists, and after
    a successful [downgrade] a second [downgrade] fails because it does
    not. *)
Theorem migration_not_repeatable :
  forall (db db' : database),
    (upgrade db = Ok db' -> upgrade db' = Raise ProgrammingError) /\
    (downgrade db = Ok db' -> downgrade db' = Raise ProgrammingError).
Proof.
  intros db db'. split.
  - intros Hup.
    apply upgrade_success in Hup as (t & Ht & Hweight & Hname & Hrows & ->).
    rewrite upgrade_cases, lookup_insert_eq.
    rewrite bool_decide_eq_true_2; [reflexivity|].
    unfold column_names. cbn [tb_columns]. rewrite map_app.
    apply elem_of_app. right. by left.
  - unfold downgrade, drop_column.
    destruct (db !! "faraday_role") as [t|]; [|discriminate].
    destruct (has_column t "weight"); [|discriminate].
    cbn [negb]. intros [= <-]. rewrite lookup_insert_eq.
    unfold has_column, column_names. cbn [tb_columns].
    rewrite bool_decide_eq_false_2; [reflexivity|].
    intros Hin. apply list_elem_of_In, in_map_iff in Hin as (c & Hc & Hin).
    apply filter_In in Hin as [_ Hne].
    apply negb_true_iff, String.eqb_neq in Hne. contradiction.
Qed.

Lemma migration_not_repeatable_witness :
  downgrade
    (<["faraday_role" :=
        mk_table [mk_column_def "name" (OtherSql "String") false] []]>
       (∅ : database))
  = Raise ProgrammingError.
Proof.
  apply (proj2 (migration_not_repeatable
                  (<["faraday_role" :=
                      mk_table
                        [mk_column_def "name" (OtherSql "String") false;
                         mk_column_def "weight" Integer false] []]>
                     (∅ : database))
                  (<["faraday_role" :=
                      mk_table [mk_column_def "name" (OtherSql "String") false]
                        []]> (∅ : database)))).
  vm_compute. reflexivity.
Defined.

(** X19: when no role row carries a stray [weight] value before the
    upgrade, a successful [upgrade] followed by [downgrade] gives back the
    database it started from, rows included. *)
Theorem upgrade_downgrade_round_trip :
  forall (db db' : database),
    (forall t, db !! "faraday_role" = Some t ->
               Forall (fun r => r !! "weight" = None) (tb_rows t)) ->
    upgrade db = Ok db' ->
    downgrade db' = Ok db.
Proof.
  intros db db' Hclean Hup.
  apply upgrade_success in Hup as (t & Ht & Hweight & Hname & Hrows & ->).
  unfold downgrade. rewrite drop_column_role.
  - cbn [tb_columns tb_rows]. f_equal.
    rewrite List.filter_app, filter_other_columns by done.
    cbn [List.filter cd_name String.eqb negb].
    change (negb ("weight" =? "weight")%string) with false. cbn iota.
    rewrite app_nil_r, map_map.
    rewrite (map_ext_in _ (fun r => r)), map_id.
    + apply insert_id. rewrite Ht. by destruct t.
    + intros r Hin. specialize (Hclean t Ht).
      rewrite List.Forall_forall in Hclean.
      unfold weighted.
      destruct (r !! "name") as [[| | |n|oid]|];
        rewrite delete_insert_eq; apply delete_id; by apply Hclean.
  - unfold column_names. cbn [tb_columns]. rewrite map_app.
    apply elem_of_app. right. by left.
Qed.

Lemma upgrade_downgrade_round_trip_witness :
  downgrade
    (<["faraday_role" :=
        mk_table
          (tb_columns Examples.role_table
           ++ [mk_column_def "weight" Integer false])%list
          (map weighted (tb_rows Examples.role_table))]> Examples.roles_db)
  = Ok Examples.roles_db.
Proof.
  apply (upgrade_downgrade_round_trip Examples.roles_db).
  - intros t Ht. vm_compute in Ht. injection Ht as <-.
    repeat constructor.
  - vm_compute. reflexivity.
Defined.
